(** * javachangename: renaming a Java project's package namespace

    A shallow embedding of [main.go] and a verification of its
    specification.

    Go strings are byte sequences and are modelled by [string].  The
    functions of Go's [unicode/utf8], [strings], [path/filepath] and [os]
    packages that the program calls are modelled after their Go
    implementations (Unix build: the path separator is "/").

    The file system is a finite map from cleaned paths to nodes, without
    symbolic links.  The state of the world also holds a log of what the
    process did -- every call into the operating system with its outcome,
    and every line printed -- and a fault oracle that can make any call
    fail, so that each error path of the program can be taken.  The file
    system holds regular files and directories only, and a call that fails
    leaves it as it was; what is proved of a failed write or of a failed
    directory creation is stated so that it also holds of a call that
    fails half-way.

    [filepath.Walk] recurses over a tree that the program changes while it
    is walked; the model bounds the depth of the recursion by a fuel, and
    all properties of the walk are proved for every fuel. *)

From Stdlib Require Import Ascii String NArith ZArith Lia.
From stdpp Require Import gmap strings list fin_maps sorting.

Local Open Scope Z_scope.
Local Open Scope nat_scope.

(** ** Slices of Go strings *)

(** [s[:n]] *)
Fixpoint str_take (n : nat) (s : string) : string :=
  match n, s with
  | S n', String c s' => String c (str_take n' s')
  | _, _ => ""
  end.

(** [s[n:]] *)
Fixpoint str_drop (n : nat) (s : string) : string :=
  match n, s with
  | S n', String _ s' => str_drop n' s'
  | _, _ => s
  end.

Abbreviation len := String.length.

(** ** Package [unicode/utf8] *)
Module utf8.

(** The entry of the table [first] for a lead byte: [None] for ASCII and
    for invalid lead bytes (both decode with width 1), otherwise the
    sequence length and the accepted range of the second byte. *)
Definition first (b : N) : option (nat * (N * N)) :=
  (if b <? 0xC2 then None
   else if b <? 0xE0 then Some (2%nat, (0x80, 0xBF))
   else if b =? 0xE0 then Some (3%nat, (0xA0, 0xBF))
   else if b <? 0xED then Some (3%nat, (0x80, 0xBF))
   else if b =? 0xED then Some (3%nat, (0x80, 0x9F))
   else if b <? 0xF0 then Some (3%nat, (0x80, 0xBF))
   else if b =? 0xF0 then Some (4%nat, (0x90, 0xBF))
   else if b <? 0xF4 then Some (4%nat, (0x80, 0xBF))
   else if b =? 0xF4 then Some (4%nat, (0x80, 0x8F))
   else None)%N.

Definition in_range (lo hi : N) (c : ascii) : bool :=
  ((lo <=? N_of_ascii c) && (N_of_ascii c <=? hi))%N.

(** The width returned by [DecodeRuneInString]: 0 on the empty string, 1
    on ASCII and on any invalid or short encoding. *)
Definition DecodeRuneInString_size (s : string) : nat :=
  match s with
  | EmptyString => 0
  | String c0 rest =>
      match first (N_of_ascii c0) with
      | None => 1
      | Some (sz, (lo, hi)) =>
          if len s <? sz then 1 else
          match rest with
          | String c1 r1 =>
              if negb (in_range lo hi c1) then 1
              else if sz <=? 2 then 2
              else match r1 with
                   | String c2 r2 =>
                       if negb (in_range 0x80 0xBF c2) then 1
                       else if sz <=? 3 then 3
                       else match r2 with
                            | String c3 _ =>
                                if negb (in_range 0x80 0xBF c3) then 1 else 4
                            | EmptyString => 1
                            end
                   | EmptyString => 1
                   end
          | EmptyString => 1
          end
      end
  end.

Fixpoint rune_count_loop (fuel : nat) (s : string) : nat :=
  match fuel, s with
  | S f, String _ _ =>
      S (rune_count_loop f (str_drop (DecodeRuneInString_size s) s))
  | _, _ => 0
  end.

Definition RuneCountInString (s : string) : nat := rune_count_loop (len s) s.

End utf8.

(** ** Package [strings] *)
Module strings.

Fixpoint HasPrefix (s prefix : string) {struct prefix} : bool :=
  match prefix, s with
  | EmptyString, _ => true
  | String a p', String b s' => if Ascii.eqb a b then HasPrefix s' p' else false
  | String _ _, EmptyString => false
  end.

(** [len(s) >= len(suffix) && s[len(s)-len(suffix):] == suffix] *)
Definition HasSuffix (s suffix : string) : bool :=
  (len suffix <=? len s) && String.eqb (str_drop (len s - len suffix) s) suffix.

(** [Index] returns the position of the first instance of [substr];
    Go's -1 is [None]. *)
Fixpoint Index (s substr : string) : option nat :=
  if HasPrefix s substr then Some 0
  else match s with
       | EmptyString => None
       | String _ s' => S <$> Index s' substr
       end.

Definition Contains (s substr : string) : bool :=
  match Index s substr with Some _ => true | None => false end.

(** The loop of [Count] for a non-empty [substr]; it runs at most [len s]
    times. *)
Fixpoint count_loop (fuel : nat) (s substr : string) : nat :=
  match fuel with
  | O => 0
  | S f =>
      match Index s substr with
      | None => 0
      | Some i => S (count_loop f (str_drop (i + len substr) s) substr)
      end
  end.

Definition Count (s substr : string) : nat :=
  if len substr =? 0 then utf8.RuneCountInString s + 1
  else count_loop (len s) s substr.

(** The loop of [Replace]: [s] is the unread rest [s[start:]], [i] the
    iteration number, [n] the number of replacements still to make. *)
Fixpoint replace_loop (n i : nat) (s old new : string) : string :=
  match n with
  | O => s
  | S n' =>
      let oj :=
        if len old =? 0
        then Some (if 0 <? i then utf8.DecodeRuneInString_size s else 0)
        else Index s old in
      match oj with
      | Some j =>
          str_take j s +:+ new +:+
            replace_loop n' (S i) (str_drop (j + len old) s) old new
      | None => s  (* not reached: [n] never exceeds [Count s old] *)
      end
  end.

Definition Replace (s old new : string) (n : Z) : string :=
  if String.eqb old new || (n =? 0)%Z then s
  else
    let m := Count s old in
    if m =? 0 then s
    else
      let n' := if (n <? 0)%Z || (Z.of_nat m <? n)%Z then m else Z.to_nat n in
      replace_loop n' 0 s old new.

Definition ReplaceAll (s old new : string) : string := Replace s old new (-1).

(** The loop of [genSplit] for a non-empty separator: [n] separators are
    still to be consumed. *)
Fixpoint split_loop (n : nat) (s sep : string) : list string :=
  match n with
  | O => [s]
  | S n' =>
      match Index s sep with
      | Some m => str_take m s :: split_loop n' (str_drop (m + len sep) s) sep
      | None => [s]
      end
  end.

(** [explode] splits after each UTF-8 sequence. *)
Fixpoint explode (fuel : nat) (s : string) : list string :=
  match fuel, s with
  | S f, String _ _ =>
      let w := utf8.DecodeRuneInString_size s in
      str_take w s :: explode f (str_drop w s)
  | _, _ => []
  end.

Definition Split (s sep : string) : list string :=
  if len sep =? 0 then explode (len s) s
  else split_loop (Count s sep) s sep.

(** [LastIndexByte]: the position of the last byte [c] of [s]. *)
Fixpoint LastIndexByte (s : string) (c : ascii) : option nat :=
  match s with
  | EmptyString => None
  | String a s' =>
      match LastIndexByte s' c with
      | Some i => Some (S i)
      | None => if Ascii.eqb a c then Some 0 else None
      end
  end.

Fixpoint Join (elems : list string) (sep : string) : string :=
  match elems with
  | [] => ""
  | [e] => e
  | e :: rest => e +:+ sep +:+ Join rest sep
  end.

End strings.

(** ** Package [path/filepath] (Unix) *)
Module filepath.

Definition Separator : string := "/".

Definition is_sep (c : ascii) : bool := Ascii.eqb c "/".

(** Index of the last separator of [s], if any. *)
Fixpoint last_sep (s : string) : option nat :=
  match s with
  | EmptyString => None
  | String c s' =>
      match last_sep s' with
      | Some i => Some (S i)
      | None => if is_sep c then Some 0 else None
      end
  end.

(** The loop of [Clean] over the path elements; [out] is the output
    buffer as a stack of elements, innermost first. *)
Fixpoint clean_elems (rooted : bool) (out elems : list string) : list string :=
  match elems with
  | [] => rev out
  | e :: rest =>
      if String.eqb e "" || String.eqb e "." then clean_elems rooted out rest
      else if String.eqb e ".." then
        match out with
        | top :: out' =>
            if String.eqb top ".." then clean_elems rooted (".." :: out) rest
            else clean_elems rooted out' rest
        | [] =>
            if rooted then clean_elems rooted [] rest
            else clean_elems rooted [".."] rest
        end
      else clean_elems rooted (e :: out) rest
  end.

Definition Clean (path : string) : string :=
  let rooted := strings.HasPrefix path Separator in
  let body := strings.Join (clean_elems rooted [] (strings.Split path Separator)) Separator in
  if rooted then Separator +:+ body
  else if String.eqb body "" then "." else body.

(** [Join(a, b)]: the first non-empty element onwards, joined and cleaned. *)
Definition Join (a b : string) : string :=
  if negb (String.eqb a "") then Clean (a +:+ Separator +:+ b)
  else if negb (String.eqb b "") then Clean b
  else "".

Definition Dir (path : string) : string :=
  match last_sep path with
  | Some i => Clean (str_take (S i) path)
  | None => Clean ""
  end.

End filepath.

(** ** The file system and the operating-system interface *)

Inductive node := File (content : string) | Directory.

Inductive Errno :=
  ENOENT | ENOTDIR | EISDIR | EEXIST | ENOTEMPTY | EINVAL | EACCES | EIO.

Definition Errno_Error (e : Errno) : string :=
  match e with
  | ENOENT => "no such file or directory"
  | ENOTDIR => "not a directory"
  | EISDIR => "is a directory"
  | EEXIST => "file exists"
  | ENOTEMPTY => "directory not empty"
  | EINVAL => "invalid argument"
  | EACCES => "permission denied"
  | EIO => "input/output error"
  end.

(** Go [error] values the program can see. *)
Inductive error :=
| PathError (op path : string) (e : Errno)      (* *fs.PathError *)
| LinkError (op old new : string) (e : Errno)   (* *os.LinkError *)
| wrapError (msg : string) (err : error)        (* fmt.Errorf with %w *)
| SkipDir                                       (* filepath.SkipDir *)
| SkipAll.                                      (* filepath.SkipAll *)

Definition Error (e : error) : string :=
  match e with
  | PathError op path e => op +:+ " " +:+ path +:+ ": " +:+ Errno_Error e
  | LinkError op old new e =>
      op +:+ " " +:+ old +:+ " " +:+ new +:+ ": " +:+ Errno_Error e
  | wrapError msg _ => msg
  | SkipDir => "skip this directory"
  | SkipAll => "skip everything and stop the walk"
  end.

(** [fmt.Errorf(prefix + ": %w", err)] *)
Definition Errorf_w (prefix : string) (err : error) : error :=
  wrapError (prefix +:+ ": " +:+ Error err) err.

Definition is_SkipDir (e : option error) : bool :=
  match e with Some SkipDir => true | _ => false end.

Definition is_SkipAll (e : option error) : bool :=
  match e with Some SkipAll => true | _ => false end.

Inductive syscall :=
  SysLstat | SysStat | SysReadDir | SysReadFile | SysWriteFile | SysMkdirAll | SysRename.

(** What the process did, in order: calls into the operating system with
    their outcome, and what it printed. *)
Inductive event :=
| Call (sc : syscall) (path arg : string) (err : option Errno)
| Stdout (line : string)
| Usage.

Record World := mkWorld {
  fs : gmap string node;                       (* keyed by cleaned path *)
  fault : syscall -> string -> option Errno;   (* injected failures *)
  log : list event
}.

Definition IO (A : Type) : Type := World -> A * World.

Definition ret {A} (a : A) : IO A := fun w => (a, w).

Definition bind {A B} (m : IO A) (k : A -> IO B) : IO B :=
  fun w => let (a, w') := m w in k a w'.

Notation "x <- m ;; k" := (bind m (fun x => k))
  (at level 100, m at next level, right associativity).
Notation "m ;;; k" := (bind m (fun _ => k))
  (at level 100, right associativity).

Definition emit (e : event) : IO unit :=
  fun w => (tt, mkWorld (fs w) (fault w) (log w ++ [e])).

(** [fmt.Printf] / [fmt.Println] with the message already formatted. *)
Definition Printf (line : string) : IO unit := emit (Stdout line).

Record FileInfo := mkFileInfo { Name : string; IsDir : bool }.

Module os.

(** "." and "/" always exist. *)
Definition lookup_node (m : gmap string node) (k : string) : option node :=
  if String.eqb k "." || String.eqb k "/" then Some Directory else m !! k.

(** The last element of a cleaned path. *)
Definition last_elem (k : string) : string :=
  match filepath.last_sep k with
  | Some i => str_drop (S i) k
  | None => k
  end.

(** The directory holding the entry [k], for a cleaned [k] that names an
    entry of a directory. *)
Definition parent_key (k : string) : option string :=
  if String.eqb k "." || String.eqb k "/" || String.eqb (last_elem k) ".."
     || String.eqb (last_elem k) "." || String.eqb (last_elem k) ""
  then None else Some (filepath.Dir k).

Definition children (m : gmap string node) (d : string) : list string :=
  merge_sort String.le
    (omap (fun k => if decide (parent_key k = Some d)
                    then Some (last_elem k) else None)
          (elements (dom m))).

(** One call: the fault oracle is asked first, then the file system. *)
Definition sys {A} (sc : syscall) (path arg : string)
    (sem : gmap string node -> Errno + (A * gmap string node)) : IO (Errno + A) :=
  fun w =>
    match fault w sc path with
    | Some e => (inl e, mkWorld (fs w) (fault w) (log w ++ [Call sc path arg (Some e)]))
    | None =>
        match sem (fs w) with
        | inl e => (inl e, mkWorld (fs w) (fault w) (log w ++ [Call sc path arg (Some e)]))
        | inr (a, m') => (inr a, mkWorld m' (fault w) (log w ++ [Call sc path arg None]))
        end
    end.

Definition rstrip_sep_all (s : string) : bool :=
  forallb filepath.is_sep (list_ascii_of_string s).

(** Removes the trailing separators of [s]. *)
Fixpoint rstrip_sep (s : string) : string :=
  match s with
  | EmptyString => ""
  | String c s' => if rstrip_sep_all s then "" else String c (rstrip_sep s')
  end.

(** [basename] of package [os]: the name a [FileInfo] reports. *)
Definition basename (name : string) : string :=
  let name := match name with
              | EmptyString => ""
              | String c s' => String c (rstrip_sep s')
              end in
  match filepath.last_sep (str_take (len name - 1) name) with
  | Some i => str_drop (S i) name
  | None => name
  end.

(** Whether the way to the missing entry [k] leads through a regular
    file: the nearest directory above [k] that has an entry is looked for,
    and that entry is a file. *)
Fixpoint below_file (fuel : nat) (m : gmap string node) (k : string) : bool :=
  match fuel with
  | O => false
  | S f =>
      let d := filepath.Dir k in
      match lookup_node m d with
      | Some (File _) => true
      | Some Directory => false
      | None => if String.eqb d k then false else below_file f m d
      end
  end.

(** The error for a missing entry [k]: ENOENT, unless a component of the
    path is a regular file, which is ENOTDIR. *)
Definition missing (m : gmap string node) (k : string) : Errno :=
  if below_file (len k) m k then ENOTDIR else ENOENT.

(** stat(2) and lstat(2). *)
Definition stat_sem (name : string) (m : gmap string node)
    : Errno + (FileInfo * gmap string node) :=
  if String.eqb name "" then inl ENOENT
  else match lookup_node m (filepath.Clean name) with
       | Some n => inr (mkFileInfo (basename name)
                          (match n with Directory => true | File _ => false end), m)
       | None => inl (missing m (filepath.Clean name))
       end.

Definition Lstat (name : string) : IO (option FileInfo * option error) :=
  r <- sys SysLstat name "" (stat_sem name) ;;
  ret (match r with
       | inl e => (None, Some (PathError "lstat" name e))
       | inr info => (Some info, None)
       end).

(** Symbolic links are not modelled: [Stat] and [Lstat] agree. *)
Definition Stat (name : string) : IO (option FileInfo * option error) :=
  r <- sys SysStat name "" (stat_sem name) ;;
  ret (match r with
       | inl e => (None, Some (PathError "stat" name e))
       | inr info => (Some info, None)
       end).

(** [os.IsNotExist] *)
Definition IsNotExist (err : option error) : bool :=
  match err with
  | Some (PathError _ _ ENOENT) | Some (LinkError _ _ _ ENOENT) => true
  | _ => false
  end.

(** The operation a failed [ReadFile] names: a directory is opened and
    cannot be read, anything else fails at the open. *)
Definition read_op (e : Errno) : string :=
  match e with EISDIR => "read" | _ => "open" end.

Definition ReadFile (name : string) : IO (string * option error) :=
  r <- sys SysReadFile name ""
         (fun m => if String.eqb name "" then inl ENOENT
                   else match lookup_node m (filepath.Clean name) with
                        | Some (File c) => inr (c, m)
                        | Some Directory => inl EISDIR
                        | None => inl (missing m (filepath.Clean name))
                        end) ;;
  ret (match r with
       | inl e => ("", Some (PathError (read_op e) name e))
       | inr c => (c, None)
       end).

(** [os.WriteFile]: creates the file or truncates it, then writes. *)
Definition WriteFile (name data : string) : IO (option error) :=
  r <- sys SysWriteFile name data
         (fun m => if String.eqb name "" then inl ENOENT
                   else
                     let k := filepath.Clean name in
                     match lookup_node m k with
                     | Some Directory => inl EISDIR
                     | Some (File _) => inr (tt, <[k := File data]> m)
                     | None =>
                         match lookup_node m (filepath.Dir k) with
                         | Some Directory => inr (tt, <[k := File data]> m)
                         | Some (File _) => inl ENOTDIR
                         | None => inl (missing m (filepath.Dir k))
                         end
                     end) ;;
  ret (match r with
       | inl e => Some (PathError "open" name e)
       | inr _ => None
       end).

(** [os.Mkdir] on a cleaned path. *)
Definition mkdir (k : string) (m : gmap string node) : Errno + gmap string node :=
  match lookup_node m k with
  | Some _ => inl EEXIST
  | None =>
      match lookup_node m (filepath.Dir k) with
      | Some Directory => inr (<[k := Directory]> m)
      | Some (File _) => inl ENOTDIR
      | None => inl (missing m (filepath.Dir k))
      end
  end.

(** The recursion of [os.MkdirAll]; it descends along [path], which gets
    shorter at every call. *)
Fixpoint mkdirAll (fuel : nat) (path : string) (m : gmap string node)
    : Errno + gmap string node :=
  match lookup_node m (filepath.Clean path) with
  | Some Directory => inr m
  | Some (File _) => inl ENOTDIR
  | None =>
      match fuel with
      | O => inl ENOENT
      | S f =>
          let trimmed := rstrip_sep path in
          let parent :=
            match filepath.last_sep trimmed with
            | Some j => if 0 <? j then mkdirAll f (str_take j path) m else inr m
            | None => inr m
            end in
          match parent with
          | inl e => inl e
          | inr m1 =>
              match mkdir (filepath.Clean path) m1 with
              | inr m2 => inr m2
              | inl e =>
                  match lookup_node m1 (filepath.Clean path) with
                  | Some Directory => inr m1
                  | _ => inl e
                  end
              end
          end
      end
  end.

Definition MkdirAll (path : string) : IO (option error) :=
  r <- sys SysMkdirAll path ""
         (fun m => if String.eqb path "" then inl ENOENT
                   else match mkdirAll (len path) path m with
                        | inl e => inl e
                        | inr m' => inr (tt, m')
                        end) ;;
  ret (match r with
       | inl e => Some (PathError "mkdir" path e)
       | inr _ => None
       end).

(** [os.Rename] of a regular file: the destination is replaced if it is a
    file, and refused with EEXIST if it is a directory (Go looks at the new
    name before the system call).  The program never renames a directory
    (it renames only what it has just read as a file), and the model
    refuses to. *)
Definition Rename (oldpath newpath : string) : IO (option error) :=
  r <- sys SysRename oldpath newpath
         (fun m => if String.eqb oldpath "" || String.eqb newpath "" then inl ENOENT
                   else
                     let ko := filepath.Clean oldpath in
                     let kn := filepath.Clean newpath in
                     match lookup_node m ko with
                     | None => inl (missing m ko)
                     | Some Directory => inl EINVAL
                     | Some (File c) =>
                         match lookup_node m kn with
                         | Some Directory => inl EEXIST
                         | _ =>
                             match lookup_node m (filepath.Dir kn) with
                             | Some Directory => inr (tt, <[kn := File c]> (delete ko m))
                             | Some (File _) => inl ENOTDIR
                             | None => inl (missing m (filepath.Dir kn))
                             end
                         end
                     end) ;;
  ret (match r with
       | inl e => Some (LinkError "rename" oldpath newpath e)
       | inr _ => None
       end).

(** [readDirNames]: the sorted names of the entries of a directory. *)
Definition readDirNames (dirname : string) : IO (list string * option error) :=
  r <- sys SysReadDir dirname ""
         (fun m => if String.eqb dirname "" then inl ENOENT
                   else match lookup_node m (filepath.Clean dirname) with
                        | Some Directory => inr (children m (filepath.Clean dirname), m)
                        | Some (File _) => inl ENOTDIR
                        | None => inl (missing m (filepath.Clean dirname))
                        end) ;;
  ret (match r with
       | inl e => ([], Some (PathError "open" dirname e))
       | inr names => (names, None)
       end).

End os.

(** ** [filepath.Walk] *)

Definition WalkFunc : Type := string -> option FileInfo -> option error -> IO (option error).

(** The walk either returns an error value ([None] is Go's [nil]) or is
    cut off because the directory tree is deeper than the fuel given. *)
Inductive status := Returned (err : option error) | OutOfFuel.

Module Walker.

(** The loop of [walk] over the names of a directory; [rec] is the
    recursive call of [walk]. *)
Fixpoint walk_names (rec : string -> FileInfo -> IO status) (walkFn : WalkFunc)
    (path : string) (names : list string) : IO status :=
  match names with
  | [] => ret (Returned None)
  | name :: rest =>
      let filename := filepath.Join path name in
      r <- os.Lstat filename ;;
      match r with
      | (Some fileInfo, None) =>
          st <- rec filename fileInfo ;;
          match st with
          | OutOfFuel => ret OutOfFuel
          | Returned None => walk_names rec walkFn path rest
          | Returned (Some e) =>
              if negb (IsDir fileInfo) || negb (is_SkipDir (Some e))
              then ret (Returned (Some e))
              else walk_names rec walkFn path rest
          end
      | (fileInfo, err) =>
          err' <- walkFn filename fileInfo err ;;
          match err' with
          | Some e =>
              if negb (is_SkipDir (Some e)) then ret (Returned (Some e))
              else walk_names rec walkFn path rest
          | None => walk_names rec walkFn path rest
          end
      end
  end.

Fixpoint walk (fuel : nat) (walkFn : WalkFunc) (path : string) (info : FileInfo)
    : IO status :=
  match fuel with
  | O => ret OutOfFuel
  | S f =>
      if negb (IsDir info) then
        err <- walkFn path (Some info) None ;; ret (Returned err)
      else
        r <- os.readDirNames path ;;
        let '(names, err) := r in
        err1 <- walkFn path (Some info) err ;;
        match err, err1 with
        | None, None => walk_names (walk f walkFn) walkFn path names
        | _, _ => ret (Returned err1)
        end
  end.

Definition Walk (fuel : nat) (root : string) (fn : WalkFunc) : IO status :=
  r <- os.Lstat root ;;
  st <- match r with
        | (Some info, None) => walk fuel fn root info
        | (info, err) => err' <- fn root info err ;; ret (Returned err')
        end ;;
  match st with
  | Returned err => if is_SkipDir err || is_SkipAll err then ret (Returned None)
                    else ret (Returned err)
  | OutOfFuel => ret OutOfFuel
  end.

End Walker.

(** ** The program *)

(** The content a Java file is rewritten to (main.go, lines 63-68). *)
Definition javaContent (originalContent oldName newName : string) : string :=
  let modifiedContent := originalContent in
  let modifiedContent :=
    strings.ReplaceAll modifiedContent ("package " +:+ oldName) ("package " +:+ newName) in
  let modifiedContent :=
    strings.ReplaceAll modifiedContent ("import " +:+ oldName) ("import " +:+ newName) in
  modifiedContent.

Definition packagePath (name : string) : string :=
  strings.ReplaceAll name "." filepath.Separator.

Definition processJavaFile (filePath oldName newName : string) : IO (option error) :=
  Printf ("Processing Java file: " +:+ filePath) ;;;
  r <- os.ReadFile filePath ;;
  let '(content, err) := r in
  match err with
  | Some e => ret (Some (Errorf_w ("failed to read file " +:+ filePath) e))
  | None =>
      let originalContent := content in
      let modifiedContent := javaContent originalContent oldName newName in
      let oldPackagePath := packagePath oldName in
      let newPackagePath := packagePath newName in
      (* both branches of [if strings.HasPrefix(oldName, newName)] are empty *)
      werr <-
        (if negb (String.eqb modifiedContent originalContent) then
           err <- os.WriteFile filePath modifiedContent ;;
           match err with
           | Some e => ret (Some (Errorf_w ("failed to write file " +:+ filePath) e))
           | None => Printf ("Updated content of " +:+ filePath) ;;; ret None
           end
         else ret None) ;;
      match werr with
      | Some e => ret (Some e)
      | None =>
          if strings.Contains filePath oldPackagePath then
            let newFilePath := strings.Replace filePath oldPackagePath newPackagePath 1 in
            if negb (String.eqb newFilePath filePath) then
              let newDir := filepath.Dir newFilePath in
              st <- os.Stat newDir ;;
              merr <-
                (if os.IsNotExist (snd st) then
                   err <- os.MkdirAll newDir ;;
                   match err with
                   | Some e =>
                       ret (Some (Errorf_w ("failed to create directory " +:+ newDir) e))
                   | None => ret None
                   end
                 else ret None) ;;
              match merr with
              | Some e => ret (Some e)
              | None =>
                  err <- os.Rename filePath newFilePath ;;
                  match err with
                  | Some e =>
                      ret (Some (Errorf_w ("failed to rename file from " +:+ filePath
                                           +:+ " to " +:+ newFilePath) e))
                  | None =>
                      Printf ("Renamed file from " +:+ filePath +:+ " to " +:+ newFilePath) ;;;
                      ret None
                  end
              end
            else ret None
          else ret None
      end
  end.

(** The content a build file is rewritten to (main.go, lines 130-153). *)
Definition buildContent (originalContent oldName newName : string) : string :=
  let modifiedContent := originalContent in
  let modifiedContent := strings.ReplaceAll modifiedContent oldName newName in
  let oldParts := strings.Split oldName "." in
  let newParts := strings.Split newName "." in
  if (0 <? length oldParts) && (0 <? length newParts) then
    let oldArtifact := default "" (last oldParts) in
    let newArtifact := default "" (last newParts) in
    let modifiedContent := strings.ReplaceAll modifiedContent oldArtifact newArtifact in
    let oldGroup := strings.Join (removelast oldParts) "." in
    let newGroup := strings.Join (removelast newParts) "." in
    if negb (String.eqb oldGroup "") && negb (String.eqb newGroup "") then
      strings.ReplaceAll modifiedContent oldGroup newGroup
    else modifiedContent
  else modifiedContent.

Definition processBuildFile (filePath oldName newName : string) : IO (option error) :=
  Printf ("Processing build file: " +:+ filePath) ;;;
  r <- os.ReadFile filePath ;;
  let '(content, err) := r in
  match err with
  | Some e => ret (Some (Errorf_w ("failed to read file " +:+ filePath) e))
  | None =>
      let originalContent := content in
      let modifiedContent := buildContent originalContent oldName newName in
      if negb (String.eqb modifiedContent originalContent) then
        err <- os.WriteFile filePath modifiedContent ;;
        match err with
        | Some e => ret (Some (Errorf_w ("failed to write file " +:+ filePath) e))
        | None => Printf ("Updated content of " +:+ filePath) ;;; ret None
        end
      else ret None
  end.

(** The function literal passed to [filepath.Walk] (main.go, lines 25-46). *)
Definition visit (oldName newName : string) : WalkFunc :=
  fun path info err =>
    match err with
    | Some e => ret (Some e)
    | None =>
        match info with
        | None => ret None   (* not reached: [info] is nil only with an error *)
        | Some info =>
            if IsDir info && (String.eqb (Name info) ".git" || String.eqb (Name info) "target")
            then ret (Some SkipDir)
            else if negb (IsDir info) && strings.HasSuffix (Name info) ".java"
            then processJavaFile path oldName newName
            else if negb (IsDir info)
                    && (String.eqb (Name info) "pom.xml" || String.eqb (Name info) "build.gradle")
            then processBuildFile path oldName newName
            else ret None
        end
    end.

(** How the process ends: exit code 0, [log.Fatal] (after the usage text or
    not), or a walk cut off by the fuel of the model. *)
Inductive exit := Exit0 | Fatal (msg : string) | Unfinished.

Definition main (fuel : nat) (projectDir oldName newName : string) : IO exit :=
  if String.eqb projectDir "" || String.eqb oldName "" || String.eqb newName "" then
    emit Usage ;;;
    ret (Fatal "All flags --dir, --old, and --new are required.")
  else
    Printf ("Renaming Java project in " +:+ projectDir +:+ " from '" +:+ oldName
            +:+ "' to '" +:+ newName +:+ "'") ;;;
    st <- Walker.Walk fuel projectDir (visit oldName newName) ;;
    match st with
    | Returned (Some err) => ret (Fatal ("Error walking the directory: " +:+ Error err))
    | Returned None =>
        Printf "Renaming complete. Please verify the changes and rebuild your Java project." ;;;
        ret Exit0
    | OutOfFuel => ret Unfinished
    end.

(** ** What the specification says, in its own words *)

(** "Literal substring replacement of every occurrence": the occurrences of
    [old] are taken from the left and do not overlap; everything between
    them is kept as it is. *)
Inductive replaced_all (old new : string) : string -> string -> Prop :=
| replaced_none s :
    strings.Index s old = None -> replaced_all old new s s
| replaced_first a b b' :
    strings.Index (a +:+ old +:+ b) old = Some (len a) ->
    replaced_all old new b b' ->
    replaced_all old new (a +:+ old +:+ b) (a +:+ new +:+ b').

(** The "trailing segment (artifact)" of a dotted name: what follows its
    last dot. *)
Definition trailing_segment (name : string) : string :=
  match strings.LastIndexByte name "." with
  | Some i => str_drop (S i) name
  | None => name
  end.

(** The "dotted prefix (group)" of a dotted name: what precedes its last
    dot, empty when the name has no dot. *)
Definition dotted_prefix (name : string) : string :=
  match strings.LastIndexByte name "." with
  | Some i => str_take i name
  | None => ""
  end.

(** Section 4.3 of the specification: full name, then artifact, then group
    if both groups are non-empty. *)
Definition spec_buildContent (content oldName newName : string) : string :=
  let c1 := strings.ReplaceAll content oldName newName in
  let c2 := strings.ReplaceAll c1 (trailing_segment oldName) (trailing_segment newName) in
  if negb (String.eqb (dotted_prefix oldName) "") && negb (String.eqb (dotted_prefix newName) "")
  then strings.ReplaceAll c2 (dotted_prefix oldName) (dotted_prefix newName)
  else c2.

(** Section 4.3 of the specification, step by step: every literal
    occurrence of the full old name is replaced by the new name; then, in
    the result, every occurrence of the old artifact by the new artifact;
    then, in that result and only if both groups are non-empty, every
    occurrence of the old group by the new group. *)
Inductive build_steps (content oldName newName : string) : string -> Prop :=
| steps_with_group c1 c2 c3 :
    replaced_all oldName newName content c1 ->
    replaced_all (trailing_segment oldName) (trailing_segment newName) c1 c2 ->
    dotted_prefix oldName <> "" -> dotted_prefix newName <> "" ->
    replaced_all (dotted_prefix oldName) (dotted_prefix newName) c2 c3 ->
    build_steps content oldName newName c3
| steps_without_group c1 c2 :
    replaced_all oldName newName content c1 ->
    replaced_all (trailing_segment oldName) (trailing_segment newName) c1 c2 ->
    dotted_prefix oldName = "" \/ dotted_prefix newName = "" ->
    build_steps content oldName newName c2.

(** ** Names that a second run leaves alone *)




(** Splitting at one byte, byte by byte. *)
Definition cons_head (a : ascii) (l : list string) : list string :=
  match l with
  | h :: t => String a h :: t
  | [] => [String a ""]
  end.

Fixpoint split_byte (c : ascii) (s : string) : list string :=
  match s with
  | EmptyString => [""]
  | String a s' =>
      if Ascii.eqb a c then "" :: split_byte c s' else cons_head a (split_byte c s')
  end.

(** ** The runs of the two processors, case by case *)

(** What a run of [processJavaFile] that has read [content] adds to the log
    and to the file system by writing the file back. *)
Definition java_write_log (filePath content oldName newName : string) : list event :=
  if String.eqb (javaContent content oldName newName) content then []
  else [Call SysWriteFile filePath (javaContent content oldName newName) None;
        Stdout ("Updated content of " +:+ filePath)].

Definition java_write_fs (filePath content oldName newName : string)
    (m : gmap string node) : gmap string node :=
  if String.eqb (javaContent content oldName newName) content then m
  else <[filepath.Clean filePath := File (javaContent content oldName newName)]> m.

(** Where [processJavaFile] moves the file (main.go, line 100). *)
Definition newFilePath (filePath oldName newName : string) : string :=
  strings.Replace filePath (packagePath oldName) (packagePath newName) 1.

(** Where the file is after a successful run of [processJavaFile]
    (main.go, lines 99-101). *)
Definition javaDestination (filePath oldName newName : string) : string :=
  if strings.Contains filePath (packagePath oldName)
  then newFilePath filePath oldName newName
  else filePath.

(** The state in which [os.Rename] is called: [os.Stat] on the new
    directory either did not report "not exist", or [os.MkdirAll] made it. *)
Definition java_prepared (filePath content oldName newName : string)
    (m : gmap string node) (m2 : gmap string node) (klog : list event) : Prop :=
  let newDir := filepath.Dir (newFilePath filePath oldName newName) in
  (exists oe, oe <> Some ENOENT /\ klog = [Call SysStat newDir "" oe]
              /\ m2 = java_write_fs filePath content oldName newName m)
  \/ (klog = [Call SysStat newDir "" (Some ENOENT); Call SysMkdirAll newDir "" None]
      /\ newDir <> ""
      /\ os.mkdirAll (len newDir) newDir (java_write_fs filePath content oldName newName m)
         = inr m2).

Inductive java_run (filePath oldName newName : string) (w : World)
    : option error -> World -> Prop :=
| jr_read_fail errno w' :
    (fault w SysReadFile filePath = None ->
     forall c, os.lookup_node (fs w) (filepath.Clean filePath) <> Some (File c)) ->
    fs w' = fs w ->
    log w' = log w ++ [Stdout ("Processing Java file: " +:+ filePath);
                       Call SysReadFile filePath "" (Some errno)] ->
    java_run filePath oldName newName w
      (Some (Errorf_w ("failed to read file " +:+ filePath)
               (PathError (os.read_op errno) filePath errno))) w'
| jr_write_fail content errno w' :
    os.lookup_node (fs w) (filepath.Clean filePath) = Some (File content) ->
    javaContent content oldName newName <> content ->
    fs w' = fs w ->
    log w' = log w ++ [Stdout ("Processing Java file: " +:+ filePath);
                       Call SysReadFile filePath "" None;
                       Call SysWriteFile filePath (javaContent content oldName newName)
                         (Some errno)] ->
    java_run filePath oldName newName w
      (Some (Errorf_w ("failed to write file " +:+ filePath) (PathError "open" filePath errno))) w'
| jr_stay content w' :
    os.lookup_node (fs w) (filepath.Clean filePath) = Some (File content) ->
    strings.Contains filePath (packagePath oldName) = false
      \/ newFilePath filePath oldName newName = filePath ->
    fs w' = java_write_fs filePath content oldName newName (fs w) ->
    log w' = log w ++ [Stdout ("Processing Java file: " +:+ filePath);
                       Call SysReadFile filePath "" None]
                   ++ java_write_log filePath content oldName newName ->
    java_run filePath oldName newName w None w'
| jr_mkdir_fail content errno w' :
    let newDir := filepath.Dir (newFilePath filePath oldName newName) in
    os.lookup_node (fs w) (filepath.Clean filePath) = Some (File content) ->
    strings.Contains filePath (packagePath oldName) = true ->
    newFilePath filePath oldName newName <> filePath ->
    fs w' = java_write_fs filePath content oldName newName (fs w) ->
    log w' = log w ++ [Stdout ("Processing Java file: " +:+ filePath);
                       Call SysReadFile filePath "" None]
                   ++ java_write_log filePath content oldName newName
                   ++ [Call SysStat newDir "" (Some ENOENT);
                       Call SysMkdirAll newDir "" (Some errno)] ->
    java_run filePath oldName newName w
      (Some (Errorf_w ("failed to create directory " +:+ newDir)
               (PathError "mkdir" newDir errno))) w'
| jr_rename_fail content m2 klog errno w' :
    let target := newFilePath filePath oldName newName in
    os.lookup_node (fs w) (filepath.Clean filePath) = Some (File content) ->
    strings.Contains filePath (packagePath oldName) = true ->
    target <> filePath ->
    java_prepared filePath content oldName newName (fs w) m2 klog ->
    fs w' = m2 ->
    log w' = log w ++ [Stdout ("Processing Java file: " +:+ filePath);
                       Call SysReadFile filePath "" None]
                   ++ java_write_log filePath content oldName newName
                   ++ klog ++ [Call SysRename filePath target (Some errno)] ->
    java_run filePath oldName newName w
      (Some (Errorf_w ("failed to rename file from " +:+ filePath +:+ " to " +:+ target)
               (LinkError "rename" filePath target errno))) w'
| jr_moved content m2 klog w' :
    let target := newFilePath filePath oldName newName in
    os.lookup_node (fs w) (filepath.Clean filePath) = Some (File content) ->
    strings.Contains filePath (packagePath oldName) = true ->
    target <> filePath ->
    java_prepared filePath content oldName newName (fs w) m2 klog ->
    os.lookup_node m2 (filepath.Clean target) <> Some Directory ->
    os.lookup_node m2 (filepath.Dir (filepath.Clean target)) = Some Directory ->
    fs w' = <[filepath.Clean target := File (javaContent content oldName newName)]>
              (delete (filepath.Clean filePath) m2) ->
    log w' = log w ++ [Stdout ("Processing Java file: " +:+ filePath);
                       Call SysReadFile filePath "" None]
                   ++ java_write_log filePath content oldName newName
                   ++ klog ++ [Call SysRename filePath target None;
                               Stdout ("Renamed file from " +:+ filePath +:+ " to " +:+ target)] ->
    java_run filePath oldName newName w None w'.

Inductive build_run (filePath oldName newName : string) (w : World)
    : option error -> World -> Prop :=
| br_read_fail errno w' :
    (fault w SysReadFile filePath = None ->
     forall c, os.lookup_node (fs w) (filepath.Clean filePath) <> Some (File c)) ->
    fs w' = fs w ->
    log w' = log w ++ [Stdout ("Processing build file: " +:+ filePath);
                       Call SysReadFile filePath "" (Some errno)] ->
    build_run filePath oldName newName w
      (Some (Errorf_w ("failed to read file " +:+ filePath)
               (PathError (os.read_op errno) filePath errno))) w'
| br_write_fail content errno w' :
    os.lookup_node (fs w) (filepath.Clean filePath) = Some (File content) ->
    buildContent content oldName newName <> content ->
    fs w' = fs w ->
    log w' = log w ++ [Stdout ("Processing build file: " +:+ filePath);
                       Call SysReadFile filePath "" None;
                       Call SysWriteFile filePath (buildContent content oldName newName)
                         (Some errno)] ->
    build_run filePath oldName newName w
      (Some (Errorf_w ("failed to write file " +:+ filePath) (PathError "open" filePath errno))) w'
| br_unchanged content w' :
    os.lookup_node (fs w) (filepath.Clean filePath) = Some (File content) ->
    buildContent content oldName newName = content ->
    fs w' = fs w ->
    log w' = log w ++ [Stdout ("Processing build file: " +:+ filePath);
                       Call SysReadFile filePath "" None] ->
    build_run filePath oldName newName w None w'
| br_written content w' :
    os.lookup_node (fs w) (filepath.Clean filePath) = Some (File content) ->
    buildContent content oldName newName <> content ->
    fs w' = <[filepath.Clean filePath := File (buildContent content oldName newName)]> (fs w) ->
    log w' = log w ++ [Stdout ("Processing build file: " +:+ filePath);
                       Call SysReadFile filePath "" None;
                       Call SysWriteFile filePath (buildContent content oldName newName) None;
                       Stdout ("Updated content of " +:+ filePath)] ->
    build_run filePath oldName newName w None w'.

(** ** What the walk may do *)

(** The directories the callback skips, and the files it hands to a
    processor (main.go, lines 31, 36, 41). *)
Definition skipped (name : string) : bool :=
  String.eqb name ".git" || String.eqb name "target".

Definition dispatchable (name : string) : bool :=
  strings.HasSuffix name ".java" || (String.eqb name "pom.xml" || String.eqb name "build.gradle").

(** A directory entry name as [readDirNames] returns them. *)
Definition simple_name (name : string) : Prop :=
  strings.Index name "/" = None /\ name <> "" /\ name <> "." /\ name <> "..".

(** The entries the walk from [root] can reach: the root, and the entries
    of a reached directory whose own name is neither .git nor target. *)
Inductive visited (root : string) : string -> Prop :=
| visited_root : visited root root
| visited_child d name :
    visited root d -> skipped (os.basename d) = false -> simple_name name ->
    visited root (filepath.Join d name).



(** The calls the walk of [root] may make: it looks only at reached
    entries, and it reads, writes and renames only reached entries with a
    dispatchable name. *)
Definition ev_ok (root : string) (ev : event) : Prop :=
  match ev with
  | Call SysLstat q _ _ | Call SysReadDir q _ _ => visited root q
  | Call SysReadFile q _ _ | Call SysWriteFile q _ _ | Call SysRename q _ _ =>
      visited root q /\ dispatchable (os.basename q) = true
  | _ => True
  end.


(** The calls a processor makes on its file [p]. *)
Definition proc_ev (p : string) (ev : event) : Prop :=
  match ev with
  | Call SysLstat _ _ _ | Call SysReadDir _ _ _ => False
  | Call SysReadFile q _ _ | Call SysWriteFile q _ _ | Call SysRename q _ _ => q = p
  | _ => True
  end.

(** A failed call, other than the [os.Stat] whose failure the program
    expects (it asks whether the new directory exists). *)
Definition is_failure (ev : event) : Prop :=
  match ev with
  | Call sc _ _ oe => sc <> SysStat /\ oe <> None
  | _ => False
  end.

Definition clean (evs : list event) : Prop := Forall (fun ev => ~ is_failure ev) evs.

(** The error value names the path and the cause of the failed call, and
    is not one of the sentinels of [filepath.Walk]. *)
Definition reports (e : error) (q : string) (errno : Errno) : Prop :=
  strings.Contains (Error e) q = true
  /\ strings.Contains (Error e) (Errno_Error errno) = true
  /\ is_SkipDir (Some e) = false /\ is_SkipAll (Some e) = false.

(** The log ends with the failed call that [e] reports; nothing failed
    before it. *)
Definition failing (evs : list event) (e : error) : Prop :=
  exists sc q arg errno,
    last evs = Some (Call sc q arg (Some errno))
    /\ clean (removelast evs) /\ sc <> SysStat /\ reports e q errno.

Definition outcome (evs : list event) (r : option error) : Prop :=
  match r with
  | None => clean evs
  | Some e => if is_SkipDir (Some e) then clean evs else failing evs e
  end.

(** What a part of the walk from [root] with the names [o] and [n] does
    between the worlds [w] and [w']. *)
Definition walk_post (root o n : string) (w w' : World) (st : status) : Prop :=
  exists evs, log w' = log w ++ evs
    /\ Forall (ev_ok root) evs
    /\ (o = n -> fs w' = fs w)
    /\ match st with
       | Returned r => outcome evs r
       | OutOfFuel => clean evs
       end.

(** ** Sample worlds *)

Definition no_fault : syscall -> string -> option Errno := fun _ _ => None.

(** A small Maven project. *)
Definition sample_fs : gmap string node :=
  list_to_map
    [("proj", Directory); ("proj/src", Directory); ("proj/src/com", Directory);
     ("proj/src/com/old", Directory);
     ("proj/src/com/old/Foo.java", File "package com.old.foo;");
     ("proj/src/com/old/Bar.txt", File "package com.old.foo;");
     ("proj/pom.xml", File "<groupId>com.old</groupId>");
     ("proj/target", Directory);
     ("proj/target/Gen.java", File "package com.old.gen;");
     ("proj/.git", Directory);
     ("proj/.git/pom.xml", File "com.old")].

Definition sample_world : World := mkWorld sample_fs no_fault [].

Definition sample_java_run : option error * World :=
  processJavaFile "proj/src/com/old/Foo.java" "com.old" "com.new" sample_world.

Definition sample_build_run : option error * World :=
  processBuildFile "proj/pom.xml" "com.old" "com.new" sample_world.

Definition sample_main_run : exit * World :=
  main 10 "proj" "com.old" "com.new" sample_world.




(** A system on which every rename is refused. *)
Definition rename_denied : syscall -> string -> option Errno :=
  fun sc _ => match sc with SysRename => Some EACCES | _ => None end.


Definition denied_main_run : exit * World :=
  main 10 "proj" "com.old" "com.new" (mkWorld sample_fs rename_denied []).

Definition nested_root_world : World :=
  mkWorld (list_to_map
             [("/home/com/old/proj", Directory); ("/home/com/old/proj/src", Directory);
              ("/home/com/old/proj/src/com", Directory);
              ("/home/com/old/proj/src/com/old", Directory);
              ("/home/com/old/proj/src/com/old/Foo.java", File "package com.old;")])
          no_fault [].

Definition nested_main_run : exit * World :=
  main 10 "/home/com/old/proj" "com.old" "com.new" nested_root_world.

(** ** Further notions for the properties of the program *)

(** [s] with every byte [c] turned into [d]. *)
Fixpoint replace_byte (c d : ascii) (s : string) : string :=
  match s with
  | EmptyString => ""
  | String a s' => String (if Ascii.eqb a c then d else a) (replace_byte c d s')
  end.

(** Every element of [l] followed by [x]. *)
Fixpoint followed_by (x : string) (l : list string) : string :=
  match l with
  | [] => ""
  | r :: l' => r +:+ x +:+ followed_by x l'
  end.

(** Every directory of [m] is a directory of [m']. *)
Definition dirs_kept (m m' : gmap string node) : Prop :=
  forall k, os.lookup_node m k = Some Directory -> os.lookup_node m' k = Some Directory.




(** In [evs] every write follows at once the successful read of the file
    it writes, and every rename comes after the successful read of the file
    it moves. *)
Definition read_first (evs : list event) : Prop :=
  forall i,
    (forall q data oe, evs !! i = Some (Call SysWriteFile q data oe) ->
       exists j, i = S j /\ evs !! j = Some (Call SysReadFile q "" None))
    /\ (forall q target oe, evs !! i = Some (Call SysRename q target oe) ->
        exists j, j < i /\ evs !! j = Some (Call SysReadFile q "" None)).

(** ** The helper [renameDirectory] (main.go, lines 167-182) *)

(** [os.Rename] with directories.  [os.Rename] above covers what the walk
    does, which renames regular files only; [renameDirectory] is meant for
    directories, whose entries move with them. *)
Module osdir.

(** The entry [d] itself, or an entry below it. *)
Definition under (d k : string) : bool :=
  String.eqb k d || strings.HasPrefix k (d +:+ "/").

(** The place below [kn] of an entry [k] below [ko]. *)
Definition rekey (ko kn k : string) : string := kn +:+ str_drop (len ko) k.

(** The tree at [ko] moved to [kn]; what was at [kn] is replaced. *)
Definition move_tree (ko kn : string) (m : gmap string node) : gmap string node :=
  list_to_map
    ((fun kv => (rekey ko kn kv.1, kv.2))
       <$> map_to_list (filter (fun kv => under ko kv.1 = true) m))
  ∪ filter (fun kv => under ko kv.1 = false /\ under kn kv.1 = false) m.

Definition has_entries (m : gmap string node) (d : string) : bool :=
  match os.children m d with [] => false | _ => true end.

(** rename(2) on cleaned paths.  A directory replaces an empty directory
    only, and cannot be moved below itself; "." and "/" cannot be moved. *)
Definition rename2 (ko kn : string) (m : gmap string node)
    : Errno + (unit * gmap string node) :=
  match os.lookup_node m ko with
  | None => inl ENOENT
  | Some (File c) =>
      match os.lookup_node m kn with
      | Some Directory => inl EISDIR
      | _ =>
          match os.lookup_node m (filepath.Dir kn) with
          | Some Directory => inr (tt, <[kn := File c]> (delete ko m))
          | Some (File _) => inl ENOTDIR
          | None => inl ENOENT
          end
      end
  | Some Directory =>
      if String.eqb ko kn then inr (tt, m)
      else if String.eqb ko "." || String.eqb ko "/" || under ko kn then inl EINVAL
      else
        match os.lookup_node m kn with
        | Some (File _) => inl ENOTDIR
        | Some Directory =>
            if has_entries m kn then inl ENOTEMPTY else inr (tt, move_tree ko kn m)
        | None =>
            match os.lookup_node m (filepath.Dir kn) with
            | Some Directory => inr (tt, move_tree ko kn m)
            | Some (File _) => inl ENOTDIR
            | None => inl ENOENT
            end
        end
  end.

(** [os.Rename] (Unix): an existing directory at [newname] is refused
    before the system call, unless both names are one entry under two
    spellings. *)
Definition rename_sem (oldname newname : string) (m : gmap string node)
    : Errno + (unit * gmap string node) :=
  if String.eqb oldname "" || String.eqb newname "" then inl ENOENT
  else
    let ko := filepath.Clean oldname in
    let kn := filepath.Clean newname in
    match os.lookup_node m kn with
    | Some Directory =>
        match os.lookup_node m ko with
        | None => inl ENOENT
        | Some _ =>
            if String.eqb newname oldname || negb (String.eqb ko kn) then inl EEXIST
            else rename2 ko kn m
        end
    | _ => rename2 ko kn m
    end.

Definition Rename (oldname newname : string) : IO (option error) :=
  r <- os.sys SysRename oldname newname (rename_sem oldname newname) ;;
  ret (match r with
       | inl e => Some (LinkError "rename" oldname newname e)
       | inr _ => None
       end).

End osdir.

(** What [os.Stat] answers in [w]: the failure injected by the system or
    found by the call, [None] when the entry is there. *)
Definition stat_errno (w : World) (name : string) : option Errno :=
  match fault w SysStat name with
  | Some e => Some e
  | None => match os.stat_sem name (fs w) with
            | inl e => Some e
            | inr _ => None
            end
  end.

(** What [os.Lstat] answers in [w]. *)
Definition lstat_errno (w : World) (name : string) : option Errno :=
  match fault w SysLstat name with
  | Some e => Some e
  | None => match os.stat_sem name (fs w) with
            | inl e => Some e
            | inr _ => None
            end
  end.

(** The error values of [renameDirectory]: [fmt.Errorf] without [%w] makes
    a plain message, with [%w] it wraps an error of the operating system. *)
Inductive dir_error :=
| errorString (msg : string)
| wrapped (err : error).

Definition renameDirectory (oldPath newPath : string) : IO (option dir_error) :=
  st <- os.Stat oldPath ;;
  if os.IsNotExist (snd st) then ret None   (* nothing to rename *)
  else
    st' <- os.Stat newPath ;;
    if negb (os.IsNotExist (snd st')) then
      ret (Some (errorString ("new directory " +:+ newPath +:+ " already exists")))
    else
      err <- osdir.Rename oldPath newPath ;;
      match err with
      | Some e =>
          ret (Some (wrapped (Errorf_w ("failed to rename directory from " +:+ oldPath
                                        +:+ " to " +:+ newPath) e)))
      | None =>
          Printf ("Renamed directory from " +:+ oldPath +:+ " to " +:+ newPath) ;;;
          ret None
      end.



(** A source tree to move. *)
Definition tree_world : World :=
  mkWorld (list_to_map
             [("src", Directory); ("src/com", Directory); ("src/com/old", Directory);
              ("src/com/old/A.java", File "package com.old;");
              ("src/com/old/sub", Directory);
              ("src/com/old/sub/B.java", File "package com.old.sub;");
              ("src/com/older", Directory);
              ("src/com/older/C.java", File "package com.older;")])
          no_fault [].

Definition tree_rename_run : option dir_error * World :=
  renameDirectory "src/com/old" "src/com/new" tree_world.

(** * Properties *)

(** ** Proof tactics *)

Local Set Warnings "-clear-no-such-hyp".

(** Two lookups of one path give one content. *)
Ltac same_content :=
  repeat match goal with
  | H1 : os.lookup_node ?m ?k = Some (File ?a),
    H2 : os.lookup_node ?m ?k = Some (File ?b) |- _ =>
      let E := fresh in
      assert (E : b = a) by congruence; clear H2; subst b
  end.

Ltac inline_lets := repeat match goal with x := _ |- _ => subst x end.

(** The two ways in which the rename was prepared. *)
Ltac split_prepared :=
  match goal with
  | H : java_prepared _ _ _ _ _ _ _ |- _ =>
      destruct H as [(? & ? & -> & ?)|(-> & ? & ?)]
  end.


Example Clean_ex1 : filepath.Clean "a//b/./c/.." = "a/b".
Proof. vm_compute. reflexivity. Qed.
Example Clean_ex2 : filepath.Clean "/../a/" = "/a".
Proof. vm_compute. reflexivity. Qed.
Example Clean_ex3 : filepath.Clean "../../a/../.." = "../../..".
Proof. vm_compute. reflexivity. Qed.
Example Clean_ex4 : filepath.Clean "" = ".".
Proof. vm_compute. reflexivity. Qed.
Example Clean_ex5 : filepath.Clean "///" = "/".
Proof. vm_compute. reflexivity. Qed.
Example Join_ex1 : filepath.Join "." "src" = "src".
Proof. vm_compute. reflexivity. Qed.
Example Join_ex2 : filepath.Join "proj/" "src" = "proj/src".
Proof. vm_compute. reflexivity. Qed.
Example Dir_ex1 : filepath.Dir "a/b/Foo.java" = "a/b".
Proof. vm_compute. reflexivity. Qed.
Example Dir_ex2 : filepath.Dir "Foo.java" = ".".
Proof. vm_compute. reflexivity. Qed.
Example Dir_ex3 : filepath.Dir "/Foo.java" = "/".
Proof. vm_compute. reflexivity. Qed.

Example ReplaceAll_ex1 :
  strings.ReplaceAll "package com.old.foo;" "package com.old" "package com.new"
  = "package com.new.foo;".
Proof. vm_compute. reflexivity. Qed.

Example ReplaceAll_ex2 : strings.ReplaceAll "abab-ab" "ab" "x" = "xx-x".
Proof. vm_compute. reflexivity. Qed.

Example ReplaceAll_ex3 : strings.ReplaceAll "abc" "" "-" = "-a-b-c-".
Proof. vm_compute. reflexivity. Qed.

Example ReplaceAll_ex4 : strings.ReplaceAll "aaa" "aa" "b" = "ba".
Proof. vm_compute. reflexivity. Qed.

Example Replace_ex5 : strings.Replace "a/b/a/b" "a" "x" 1 = "x/b/a/b".
Proof. vm_compute. reflexivity. Qed.

Example Split_ex1 : strings.Split "com.example.old" "." = ["com"; "example"; "old"].
Proof. vm_compute. reflexivity. Qed.

Example Split_ex2 : strings.Split "" "." = [""].
Proof. vm_compute. reflexivity. Qed.

Example buildContent_over_replaces :
  buildContent "<groupId>com.old</groupId><artifactId>old</artifactId><name>threshold</name>"
    "com.old" "com.new"
  = "<groupId>com.new</groupId><artifactId>new</artifactId><name>threshnew</name>".
Proof. vm_compute. reflexivity. Qed.

Example Split_ex3 : strings.Split "com." "." = ["com"; ""].
Proof. vm_compute. reflexivity. Qed.

(** ** Facts about Go strings *)
Section StringFacts.

Lemma str_app_cons (c : ascii) (a b : string) : String c a +:+ b = String c (a +:+ b).
Proof. reflexivity. Qed.

Lemma str_app_nil_r (a : string) : a +:+ "" = a.
Proof. induction a as [|c a IH]; [done|]. by rewrite str_app_cons, IH. Qed.

Lemma str_app_assoc (a b c : string) : (a +:+ b) +:+ c = a +:+ b +:+ c.
Proof. induction a as [|x a IH]; [done|]. by rewrite !str_app_cons, IH. Qed.

Lemma len_app (a b : string) : len (a +:+ b) = len a + len b.
Proof. induction a as [|x a IH]; [done|]. rewrite str_app_cons. simpl. by rewrite IH. Qed.

Lemma len_0 (s : string) : len s = 0 -> s = "".
Proof. by destruct s. Qed.

Lemma str_take_drop (n : nat) (s : string) : str_take n s +:+ str_drop n s = s.
Proof.
  revert s. induction n as [|n IH]; intros [|c s]; simpl; try done.
  by rewrite str_app_cons, IH.
Qed.

Lemma str_take_app (a b : string) : str_take (len a) (a +:+ b) = a.
Proof. induction a as [|c a IH]; [by destruct b|]. rewrite str_app_cons. simpl. by rewrite IH. Qed.

Lemma str_drop_app (a b : string) : str_drop (len a) (a +:+ b) = b.
Proof. induction a as [|c a IH]; [by destruct b|]. by rewrite str_app_cons. Qed.

Lemma str_drop_add (n m : nat) (s : string) :
  str_drop (n + m) s = str_drop m (str_drop n s).
Proof.
  revert s. induction n as [|n IH]; intros s; [done|].
  destruct s as [|c s]; simpl; [by destruct m|]. apply IH.
Qed.

Lemma str_take_app_le (n : nat) (a b : string) :
  n <= len a -> str_take n (a +:+ b) = str_take n a.
Proof.
  revert a. induction n as [|n IH]; intros a Hn.
  - by destruct a, b.
  - destruct a as [|c a]; simpl in Hn; [lia|]. rewrite str_app_cons. simpl.
    f_equal. apply IH. lia.
Qed.

Lemma str_drop_app_le (n : nat) (a b : string) :
  n <= len a -> str_drop n (a +:+ b) = str_drop n a +:+ b.
Proof.
  revert a. induction n as [|n IH]; intros a Hn.
  - by destruct a, b.
  - destruct a as [|c a]; simpl in Hn; [lia|]. rewrite str_app_cons. simpl.
    apply IH. lia.
Qed.

Lemma len_str_drop (n : nat) (s : string) : len (str_drop n s) = len s - n.
Proof. revert s. induction n as [|n IH]; intros [|c s]; simpl; auto. Qed.

Lemma HasPrefix_app (x b : string) : strings.HasPrefix (x +:+ b) x = true.
Proof.
  induction x as [|c x IH]; [done|]. rewrite str_app_cons. simpl.
  by rewrite Ascii.eqb_refl.
Qed.

Lemma HasPrefix_split (s x : string) :
  strings.HasPrefix s x = true -> s = x +:+ str_drop (len x) s.
Proof.
  revert s. induction x as [|c x IH]; intros s H.
  - by destruct s.
  - destruct s as [|d s]; simpl in H; [done|].
    destruct (Ascii.eqb_spec c d) as [->|]; [|done].
    simpl. rewrite str_app_cons. f_equal. by apply IH.
Qed.

Lemma HasPrefix_len (s x : string) : strings.HasPrefix s x = true -> len x <= len s.
Proof.
  intros H. rewrite (HasPrefix_split _ _ H), len_app. lia.
Qed.

Lemma HasPrefix_app_inv (a b x : string) :
  len x <= len a -> strings.HasPrefix (a +:+ b) x = true -> strings.HasPrefix a x = true.
Proof.
  revert a. induction x as [|c x IH]; intros a Hl H; [done|].
  destruct a as [|d a]; simpl in Hl; [lia|].
  rewrite str_app_cons in H. simpl in *.
  destruct (Ascii.eqb c d); [|done]. apply IH; [lia|done].
Qed.

Lemma HasPrefix_app_l (a b x : string) :
  strings.HasPrefix a x = true -> strings.HasPrefix (a +:+ b) x = true.
Proof. intros H. rewrite (HasPrefix_split _ _ H), str_app_assoc. apply HasPrefix_app. Qed.

Lemma Index_cons (c : ascii) (s x : string) :
  strings.Index (String c s) x =
    if strings.HasPrefix (String c s) x then Some 0 else S <$> strings.Index s x.
Proof. reflexivity. Qed.

Lemma Index_bound (s x : string) (j : nat) :
  strings.Index s x = Some j -> j + len x <= len s.
Proof.
  revert j. induction s as [|c s IH]; intros j H.
  - simpl in H. destruct (strings.HasPrefix "" x) eqn:E; [|done].
    apply HasPrefix_len in E. simplify_eq. simpl in *. lia.
  - rewrite Index_cons in H.
    destruct (strings.HasPrefix (String c s) x) eqn:E.
    + apply HasPrefix_len in E. simplify_eq. lia.
    + destruct (strings.Index s x) as [j'|] eqn:E'; simplify_eq/=.
      specialize (IH _ eq_refl). lia.
Qed.

Lemma Index_Some_split (s x : string) (j : nat) :
  strings.Index s x = Some j ->
  s = str_take j s +:+ x +:+ str_drop (j + len x) s.
Proof.
  revert j. induction s as [|c s IH]; intros j H.
  - simpl in H. destruct (strings.HasPrefix "" x) eqn:E; [|done].
    simplify_eq. by apply HasPrefix_split in E.
  - rewrite Index_cons in H.
    destruct (strings.HasPrefix (String c s) x) eqn:E.
    + simplify_eq. by apply HasPrefix_split in E.
    + destruct (strings.Index s x) as [j'|] eqn:E'; simplify_eq/=.
      rewrite ?str_app_cons. f_equal. by apply IH.
Qed.

Lemma Index_app_l (a b x : string) (j : nat) :
  strings.Index a x = Some j -> strings.Index (a +:+ b) x = Some j.
Proof.
  revert j. induction a as [|c a IH]; intros j H.
  - simpl in H. destruct (strings.HasPrefix "" x) eqn:E; [|done].
    simplify_eq. destruct x; [|done]. by destruct b.
  - rewrite Index_cons in H. rewrite str_app_cons, Index_cons.
    destruct (strings.HasPrefix (String c a) x) eqn:E.
    + simplify_eq. by rewrite <- str_app_cons, (HasPrefix_app_l _ _ _ E).
    + destruct (strings.Index a x) as [j'|] eqn:E'; simplify_eq/=.
      destruct (strings.HasPrefix (String c (a +:+ b)) x) eqn:E2.
      * exfalso. apply Index_bound in E'.
        assert (strings.HasPrefix (String c a) x = true) as E3; [|congruence].
        apply (HasPrefix_app_inv _ b); [simpl; lia | by rewrite str_app_cons].
      * by rewrite (IH _ eq_refl).
Qed.

Lemma Index_occurs (a x b : string) : is_Some (strings.Index (a +:+ x +:+ b) x).
Proof.
  induction a as [|c a IH].
  - change ("" +:+ x +:+ b) with (x +:+ b).
    destruct (x +:+ b) eqn:E; simpl; rewrite <- E, HasPrefix_app; eauto.
  - rewrite str_app_cons, Index_cons. destruct strings.HasPrefix; [eauto|].
    destruct IH as [j ->]. simpl. eauto.
Qed.

Lemma Index_empty (s : string) : strings.Index s "" = Some 0.
Proof. by destruct s. Qed.

End StringFacts.

(** ** Facts about [strings.Replace], [strings.Count] and [strings.Split] *)
Section ReplaceFacts.

Lemma len_str_take (n : nat) (s : string) : n <= len s -> len (str_take n s) = n.
Proof.
  revert s. induction n as [|n IH]; intros [|c s] H; simpl in *; try done; try lia.
  rewrite IH; lia.
Qed.

Lemma Index_nil_None (x : string) : x <> "" -> strings.Index "" x = None.
Proof. by destruct x. Qed.



Lemma Count_Some (s x : string) (j : nat) :
  strings.Index s x = Some j -> exists m, strings.Count s x = S m.
Proof.
  intros H. unfold strings.Count. destruct x as [|c x]; simpl.
  - exists (utf8.RuneCountInString s). lia.
  - pose proof (Index_bound _ _ _ H) as Hb. simpl in Hb.
    destruct (len s) eqn:E; [lia|]. simpl. rewrite H. eauto.
Qed.

Lemma Replace_same (s x : string) (n : Z) : strings.Replace s x x n = s.
Proof. unfold strings.Replace. by rewrite String.eqb_refl. Qed.



Lemma ReplaceAll_same (s x : string) : strings.ReplaceAll s x x = s.
Proof. apply Replace_same. Qed.

(** Replacing once rewrites the first occurrence and nothing else. *)
Lemma Replace_1 (s old new : string) (j : nat) :
  strings.Index s old = Some j ->
  strings.Replace s old new 1 = str_take j s +:+ new +:+ str_drop (j + len old) s.
Proof.
  intros H. unfold strings.Replace.
  destruct (String.eqb_spec old new) as [->|Hne]; simpl.
  - by apply Index_Some_split.
  - destruct (Count_Some _ _ _ H) as [m Hm]. cbv zeta. rewrite Hm.
    assert ((Z.of_nat (S m) <? 1)%Z = false) as Hlt by (apply Z.ltb_ge; lia).
    rewrite Hlt. simpl. destruct old as [|c old]; simpl.
    + rewrite Index_empty in H. by simplify_eq.
    + by rewrite H.
Qed.

Lemma replaced_all_loop (old new : string) (fuel : nat) :
  old <> "" ->
  forall s i, len s <= fuel ->
    replaced_all old new s
      (strings.replace_loop (strings.count_loop fuel s old) i s old new).
Proof.
  intros Hold. induction fuel as [|f IH]; intros s i Hlen.
  - simpl. apply replaced_none. rewrite (len_0 s) by lia.
    by apply Index_nil_None.
  - simpl. destruct (strings.Index s old) as [j|] eqn:E.
    + simpl. destruct old as [|c old]; [done|]. simpl. rewrite E.
      pose proof (Index_bound _ _ _ E) as Hb.
      rewrite (Index_Some_split _ _ _ E) at 1.
      apply replaced_first.
      * rewrite <- (Index_Some_split _ _ _ E), len_str_take; [done|lia].
      * apply IH. rewrite len_str_drop. simpl in *. lia.
    + simpl. by apply replaced_none.
Qed.

Lemma replaced_all_refl (old : string) (fuel : nat) :
  old <> "" -> forall s, len s <= fuel -> replaced_all old old s s.
Proof.
  intros Hold. induction fuel as [|f IH]; intros s Hlen.
  - apply replaced_none. rewrite (len_0 s) by lia. by apply Index_nil_None.
  - destruct (strings.Index s old) as [j|] eqn:E; [|by apply replaced_none].
    pose proof (Index_bound _ _ _ E) as Hb.
    assert (0 < len old) by (destruct old; [done|simpl; lia]).
    rewrite (Index_Some_split _ _ _ E).
    apply replaced_first.
    + rewrite <- (Index_Some_split _ _ _ E), len_str_take; [done|lia].
    + apply IH. rewrite len_str_drop. lia.
Qed.

(** [strings.ReplaceAll] with a non-empty pattern is the literal replacement
    of every occurrence. *)
Lemma ReplaceAll_replaced_all (s old new : string) :
  old <> "" -> replaced_all old new s (strings.ReplaceAll s old new).
Proof.
  intros Hold. unfold strings.ReplaceAll, strings.Replace.
  destruct (String.eqb_spec old new) as [->|Hne]; simpl.
  - by apply (replaced_all_refl _ (len s)).
  - unfold strings.Count. destruct old as [|c old]; [done|]. simpl len. simpl Nat.eqb.
    cbv iota.
    pose proof (replaced_all_loop (String c old) new (len s) Hold s 0 (le_n _)) as H.
    destruct (strings.count_loop (len s) s (String c old)) eqn:E; simpl; [|done].
    exact H.
Qed.

Lemma str_app_inj_len (a a' x y : string) :
  len a = len a' -> a +:+ x = a' +:+ y -> a = a' /\ x = y.
Proof.
  revert a'. induction a as [|c a IH]; intros [|c' a'] Hl H; simpl in Hl; try done.
  rewrite !str_app_cons in H. injection H as -> H.
  destruct (IH a') as [-> ->]; [lia|done|done].
Qed.

(** The literal replacement of every occurrence has one result only. *)
Lemma replaced_all_functional (old new s t1 t2 : string) :
  replaced_all old new s t1 -> replaced_all old new s t2 -> t1 = t2.
Proof.
  intros H1. revert t2.
  induction H1 as [s Hnone|a b b' Hidx Hrest IH]; intros t2 H2.
  - inversion H2 as [|a2 b2 b2' Hidx2 Hrest2 Heq]; subst; [done|]. congruence.
  - inversion H2 as [s2 Hnone2|a2 b2 b2' Hidx2 Hrest2 Heq]; subst; [congruence|].
    rewrite Heq in Hidx2. rewrite Hidx in Hidx2. injection Hidx2 as Hlen.
    apply str_app_inj_len in Heq as [-> Heq]; [|done].
    apply String.app_inj in Heq. subst. f_equal. f_equal. by apply IH.
Qed.

End ReplaceFacts.

(** ** Splitting a dotted name *)
Section SplitFacts.

Variable c : ascii.

Let sep : string := String c "".

Lemma Index_byte (a : ascii) (s : string) :
  strings.Index (String a s) sep =
    if Ascii.eqb a c then Some 0 else S <$> strings.Index s sep.
Proof.
  rewrite Index_cons. unfold sep. simpl. rewrite (Ascii.eqb_sym c a).
  by destruct (Ascii.eqb a c).
Qed.

Lemma split_byte_ne (s : string) : split_byte c s <> [].
Proof.
  destruct s as [|a s]; simpl; [done|].
  destruct (Ascii.eqb a c); [done|]. by destruct (split_byte c s).
Qed.

Lemma cons_head_app (a : ascii) (l k : list string) :
  l <> [] -> cons_head a (l ++ k) = cons_head a l ++ k.
Proof. by destruct l. Qed.

Lemma split_byte_None (s : string) :
  strings.Index s sep = None -> split_byte c s = [s].
Proof.
  induction s as [|a s IH]; [done|]. rewrite Index_byte. simpl.
  destruct (Ascii.eqb a c); [done|].
  destruct (strings.Index s sep); [done|]. intros _. by rewrite IH.
Qed.

Lemma split_byte_Some (s : string) (j : nat) :
  strings.Index s sep = Some j ->
  split_byte c s = str_take j s :: split_byte c (str_drop (j + 1) s).
Proof.
  revert j. induction s as [|a s IH]; intros j; [done|].
  rewrite Index_byte. simpl split_byte.
  destruct (Ascii.eqb a c).
  - intros [= <-]. done.
  - destruct (strings.Index s sep) as [j'|]; [|done].
    intros [= <-]. by rewrite (IH j').
Qed.

Lemma split_loop_split_byte (fuel : nat) :
  forall s, len s <= fuel ->
    strings.split_loop (strings.count_loop fuel s sep) s sep = split_byte c s.
Proof.
  induction fuel as [|f IH]; intros s Hlen.
  - by rewrite (len_0 s) by lia.
  - simpl. destruct (strings.Index s sep) as [j|] eqn:E.
    + simpl. rewrite E. rewrite (split_byte_Some _ _ E). f_equal.
      apply IH. pose proof (Index_bound _ _ _ E) as Hb. rewrite len_str_drop.
      simpl in *. lia.
    + simpl. by rewrite split_byte_None.
Qed.

Lemma Split_byte (s : string) : strings.Split s sep = split_byte c s.
Proof. unfold strings.Split, strings.Count. simpl. by apply split_loop_split_byte. Qed.

Lemma split_byte_last (s : string) :
  split_byte c s =
    match strings.LastIndexByte s c with
    | Some i => split_byte c (str_take i s) ++ [str_drop (S i) s]
    | None => [s]
    end.
Proof.
  induction s as [|a s IH]; [done|]. simpl.
  destruct (strings.LastIndexByte s c) as [i|].
  - simpl. rewrite IH. destruct (Ascii.eqb a c); [done|].
    apply cons_head_app, split_byte_ne.
  - rewrite IH. by destruct (Ascii.eqb a c).
Qed.

Lemma Join_split_byte (s : string) : strings.Join (split_byte c s) sep = s.
Proof.
  induction s as [|a s IH]; [done|]. simpl.
  destruct (Ascii.eqb_spec a c) as [->|Hne].
  - pose proof (split_byte_ne s) as Hn.
    destruct (split_byte c s) as [|h t] eqn:E; [done|].
    change (strings.Join ("" :: h :: t) sep) with ("" +:+ sep +:+ strings.Join (h :: t) sep).
    by rewrite IH.
  - pose proof (split_byte_ne s) as Hn.
    destruct (split_byte c s) as [|h t] eqn:E; [done|]. simpl cons_head.
    destruct t as [|h' t].
    + simpl in *. by subst.
    + change (strings.Join (String a h :: h' :: t) sep)
        with (String a (h +:+ sep +:+ strings.Join (h' :: t) sep)).
      f_equal. exact IH.
Qed.

End SplitFacts.

Lemma Split_dot_length (name : string) : 0 < length (strings.Split name ".").
Proof.
  rewrite (Split_byte "."). pose proof (split_byte_ne "." name).
  destruct (split_byte "." name); [done|simpl; lia].
Qed.

Lemma Split_dot_last (name : string) :
  default "" (last (strings.Split name ".")) = trailing_segment name.
Proof.
  rewrite (Split_byte "."), split_byte_last. unfold trailing_segment.
  destruct (strings.LastIndexByte name "."); [|done]. by rewrite last_snoc.
Qed.

Lemma Split_dot_init (name : string) :
  strings.Join (removelast (strings.Split name ".")) "." = dotted_prefix name.
Proof.
  rewrite (Split_byte "."), split_byte_last. unfold dotted_prefix.
  destruct (strings.LastIndexByte name "."); [|done].
  rewrite removelast_last. apply (Join_split_byte ".").
Qed.

Lemma buildContent_spec (content oldName newName : string) :
  buildContent content oldName newName = spec_buildContent content oldName newName.
Proof.
  unfold buildContent, spec_buildContent.
  pose proof (Split_dot_length oldName) as Ho.
  pose proof (Split_dot_length newName) as Hn.
  apply Nat.ltb_lt in Ho, Hn. rewrite Ho, Hn. simpl andb. cbv iota.
  by rewrite !Split_dot_last, !Split_dot_init.
Qed.

Lemma trailing_segment_nonempty (name : string) :
  trailing_segment name <> "" -> name <> "".
Proof. by intros H ->. Qed.

(** C3: on a build file the processor replaces every literal occurrence of
    the full old name by the full new name, then every occurrence of the
    old trailing segment (artifact) by the new one, and then -- only when
    both dotted prefixes (groups) are non-empty -- every occurrence of the
    old group by the new group, each in the result of the step before:
    what the code computes is the one result of these steps, where a step
    replaces the occurrences of its pattern from the left, without overlap,
    and keeps everything between them.  The old name is one whose trailing
    segment is not empty, so that every step has a pattern to look for. *)
Theorem C3_build_content_pipeline (content oldName newName : string) :
  trailing_segment oldName <> "" ->
  forall result,
    build_steps content oldName newName result
    <-> result = buildContent content oldName newName.
Proof.
  intros Hart result.
  pose proof (trailing_segment_nonempty _ Hart) as Hold.
  rewrite buildContent_spec. unfold spec_buildContent.
  pose proof (ReplaceAll_replaced_all content oldName newName Hold) as H1.
  set (c1 := strings.ReplaceAll content oldName newName) in *.
  pose proof (ReplaceAll_replaced_all c1 _ (trailing_segment newName) Hart) as H2.
  set (c2 := strings.ReplaceAll c1 (trailing_segment oldName) (trailing_segment newName))
    in *.
  split.
  - intros Hsteps.
    inversion Hsteps as [d1 d2 d3 G1 G2 Go Gn G3|d1 d2 G1 G2 Hg]; subst.
    + assert (d1 = c1) as -> by (by eapply replaced_all_functional).
      assert (d2 = c2) as -> by (by eapply replaced_all_functional).
      apply String.eqb_neq in Go as Eo. apply String.eqb_neq in Gn as En.
      rewrite Eo, En. cbn [negb andb].
      eapply replaced_all_functional; [exact G3|]. by apply ReplaceAll_replaced_all.
    + assert (d1 = c1) as -> by (by eapply replaced_all_functional).
      assert (result = c2) as -> by (by eapply replaced_all_functional).
      destruct Hg as [-> | ->]; cbn [String.eqb negb andb]; [done|].
      by rewrite andb_false_r.
  - intros ->.
    destruct (String.eqb_spec (dotted_prefix oldName) "") as [Eo|Eo]; cbn [negb andb].
    { eapply steps_without_group; eauto. }
    destruct (String.eqb_spec (dotted_prefix newName) "") as [En|En]; cbn [negb].
    { eapply steps_without_group; eauto. }
    eapply steps_with_group; eauto. by apply ReplaceAll_replaced_all.
Qed.

Lemma C3_build_content_pipeline_witness :
  trailing_segment "com.old" <> ""
  /\ build_steps "<groupId>com.old</groupId><artifactId>old</artifactId>"
       "com.old" "com.new"
       "<groupId>com.new</groupId><artifactId>new</artifactId>".
Proof.
  split; [done|].
  apply (C3_build_content_pipeline
           "<groupId>com.old</groupId><artifactId>old</artifactId>" "com.old" "com.new");
    [done|vm_compute; reflexivity].
Defined.

Section OsFacts.

Lemma last_sep_None (k : string) :
  filepath.last_sep k = None -> strings.Index k "/" = None.
Proof.
  induction k as [|a k IH]; [done|]. rewrite (Index_byte "/"). simpl.
  destruct (filepath.last_sep k); [done|]. unfold filepath.is_sep.
  destruct (Ascii.eqb a "/"); [done|]. intros _. by rewrite IH.
Qed.

Lemma last_elem_no_sep (k : string) : strings.Index (os.last_elem k) "/" = None.
Proof.
  unfold os.last_elem. destruct (filepath.last_sep k) as [i|] eqn:E.
  - revert i E. induction k as [|a k IH]; intros i E; [done|]. simpl in E.
    destruct (filepath.last_sep k) as [i'|] eqn:E'.
    + simplify_eq. simpl. by apply IH.
    + destruct (filepath.is_sep a); simplify_eq. simpl. by apply last_sep_None.
  - by apply last_sep_None.
Qed.

Lemma children_simple (m : gmap string node) (d : string) :
  Forall simple_name (os.children m d).
Proof.
  apply Forall_forall. intros x Hx. unfold os.children in Hx.
  rewrite merge_sort_Permutation in Hx.
  apply list_elem_of_omap in Hx as (k & _ & Hk).
  case_decide as Hp; simplify_eq. unfold os.parent_key in Hp.
  destruct (String.eqb_spec (os.last_elem k) ".."),
           (String.eqb_spec (os.last_elem k) "."),
           (String.eqb_spec (os.last_elem k) "");
    rewrite ?orb_true_r in Hp; try done.
  split; [apply last_elem_no_sep|done].
Qed.

Lemma ReadFile_inv (name : string) (w : World) (c : string) (oe : option error) (w' : World) :
  os.ReadFile name w = ((c, oe), w') ->
  fault w' = fault w /\ fs w' = fs w /\
  match oe with
  | None => os.lookup_node (fs w) (filepath.Clean name) = Some (File c)
            /\ log w' = log w ++ [Call SysReadFile name "" None]
  | Some e => exists errno, e = PathError (os.read_op errno) name errno
            /\ log w' = log w ++ [Call SysReadFile name "" (Some errno)]
            /\ (fault w SysReadFile name = None ->
                forall c, os.lookup_node (fs w) (filepath.Clean name) <> Some (File c))
  end.
Proof.
  unfold os.ReadFile, os.sys, bind, ret. intros H.
  destruct (fault w SysReadFile name) as [e|] eqn:Ef.
  { injection H as <- <- <-. cbn [fs fault log]. do 2 (split; [done|]).
    exists e. do 2 (split; [done|]). intros Hf. congruence. }
  destruct (String.eqb_spec name "") as [->|Hne].
  { injection H as <- <- <-. cbn [fs fault log]. do 2 (split; [done|]).
    exists ENOENT. do 2 (split; [done|]). intros _ c' Hc. by vm_compute in Hc. }
  destruct (os.lookup_node (fs w) (filepath.Clean name)) as [[c'|]|] eqn:El;
    injection H as <- <- <-; cbn [fs fault log]; do 2 (split; [done|]); [done| |].
  - exists EISDIR. do 2 (split; [done|]). intros _ c'' Hc. congruence.
  - exists (os.missing (fs w) (filepath.Clean name)). do 2 (split; [done|]).
    intros _ c'' Hc. congruence.
Qed.

Lemma WriteFile_inv (name data : string) (w : World) (oe : option error) (w' : World) :
  os.WriteFile name data w = (oe, w') ->
  fault w' = fault w /\
  match oe with
  | None => fs w' = <[filepath.Clean name := File data]> (fs w)
            /\ log w' = log w ++ [Call SysWriteFile name data None]
  | Some e => exists errno, e = PathError "open" name errno /\ fs w' = fs w
            /\ log w' = log w ++ [Call SysWriteFile name data (Some errno)]
  end.
Proof.
  unfold os.WriteFile, os.sys, bind, ret. intros H.
  repeat case_match; simplify_eq/=; eauto.
Qed.

Lemma Stat_inv (name : string) (w : World) (r : option FileInfo * option error) (w' : World) :
  os.Stat name w = (r, w') ->
  fault w' = fault w /\ fs w' = fs w /\
  exists oe, log w' = log w ++ [Call SysStat name "" oe]
             /\ (os.IsNotExist (snd r) = true <-> oe = Some ENOENT).
Proof.
  unfold os.Stat, os.sys, os.stat_sem, bind, ret. intros H.
  repeat case_match; simplify_eq/=; repeat split; eexists; split; try done;
    by case_match.
Qed.

Lemma Lstat_inv (name : string) (w : World) (r : option FileInfo * option error) (w' : World) :
  os.Lstat name w = (r, w') ->
  fault w' = fault w /\ fs w' = fs w /\
  ((exists info, r = (Some info, None) /\ Name info = os.basename name
                 /\ log w' = log w ++ [Call SysLstat name "" None])
   \/ (exists errno, r = (None, Some (PathError "lstat" name errno))
                 /\ log w' = log w ++ [Call SysLstat name "" (Some errno)])).
Proof.
  unfold os.Lstat, os.sys, os.stat_sem, bind, ret. intros H.
  repeat case_match; simplify_eq/=; repeat split; eauto.
Qed.

Lemma readDirNames_inv (name : string) (w : World) (names : list string)
    (oe : option error) (w' : World) :
  os.readDirNames name w = ((names, oe), w') ->
  fault w' = fault w /\ fs w' = fs w /\
  match oe with
  | None => Forall simple_name names /\ log w' = log w ++ [Call SysReadDir name "" None]
  | Some e => exists errno, e = PathError "open" name errno
            /\ log w' = log w ++ [Call SysReadDir name "" (Some errno)]
  end.
Proof.
  unfold os.readDirNames, os.sys, bind, ret. intros H.
  repeat case_match; simplify_eq/=; eauto.
  repeat split; try done. apply children_simple.
Qed.

Lemma MkdirAll_inv (path : string) (w : World) (oe : option error) (w' : World) :
  os.MkdirAll path w = (oe, w') ->
  fault w' = fault w /\
  match oe with
  | None => path <> "" /\ os.mkdirAll (len path) path (fs w) = inr (fs w')
            /\ log w' = log w ++ [Call SysMkdirAll path "" None]
  | Some e => exists errno, e = PathError "mkdir" path errno /\ fs w' = fs w
            /\ log w' = log w ++ [Call SysMkdirAll path "" (Some errno)]
  end.
Proof.
  unfold os.MkdirAll, os.sys, bind, ret. intros H.
  repeat case_match; simplify_eq/=; eauto.
  split; [done|]. split; [|done]. by intros ->.
Qed.

Lemma Rename_inv (oldpath newpath : string) (w : World) (oe : option error) (w' : World) :
  os.Rename oldpath newpath w = (oe, w') ->
  fault w' = fault w /\
  match oe with
  | None => exists c,
      os.lookup_node (fs w) (filepath.Clean oldpath) = Some (File c)
      /\ os.lookup_node (fs w) (filepath.Clean newpath) <> Some Directory
      /\ os.lookup_node (fs w) (filepath.Dir (filepath.Clean newpath)) = Some Directory
      /\ fs w' = <[filepath.Clean newpath := File c]> (delete (filepath.Clean oldpath) (fs w))
      /\ log w' = log w ++ [Call SysRename oldpath newpath None]
  | Some e => exists errno, e = LinkError "rename" oldpath newpath errno /\ fs w' = fs w
            /\ log w' = log w ++ [Call SysRename oldpath newpath (Some errno)]
  end.
Proof.
  unfold os.Rename, os.sys, bind, ret. intros H.
  repeat case_match; simplify_eq/=; eauto; split; try done;
    eexists; repeat split; try done; congruence.
Qed.

End OsFacts.

(** ** The runs of the processors *)
Section ProcessorRuns.

Lemma lookup_node_File (m : gmap string node) (k c : string) :
  os.lookup_node m k = Some (File c) -> m !! k = Some (File c).
Proof. unfold os.lookup_node. by case_match. Qed.

Lemma lookup_node_insert_File (m : gmap string node) (k c c' : string) :
  os.lookup_node m k = Some (File c) ->
  os.lookup_node (<[k := File c']> m) k = Some (File c').
Proof.
  unfold os.lookup_node. case_match; [done|]. intros _. by rewrite lookup_insert_eq.
Qed.

Lemma mkdir_mono (k : string) (m m' : gmap string node) :
  os.mkdir k m = inr m' ->
  forall k' v, os.lookup_node m k' = Some v -> os.lookup_node m' k' = Some v.
Proof.
  unfold os.mkdir. intros H k' v Hk'.
  destruct (os.lookup_node m k) eqn:Ek; [done|].
  repeat case_match; simplify_eq.
  unfold os.lookup_node in *.
  destruct (String.eqb k' "." || String.eqb k' "/"); [done|].
  destruct (String.eqb k "." || String.eqb k "/"); [done|].
  rewrite lookup_insert_ne; [done|]. intros ->. congruence.
Qed.

Lemma mkdirAll_mono (fuel : nat) :
  forall path m m', os.mkdirAll fuel path m = inr m' ->
  forall k v, os.lookup_node m k = Some v -> os.lookup_node m' k = Some v.
Proof.
  induction fuel as [|f IH]; intros path m m' H k v Hk; simpl in H.
  - repeat case_match; by simplify_eq.
  - destruct (os.lookup_node m (filepath.Clean path)) as [[]|] eqn:E; simplify_eq; [done|].
    assert (exists m1, (forall k v, os.lookup_node m k = Some v -> os.lookup_node m1 k = Some v)
              /\ match os.mkdir (filepath.Clean path) m1 with
                 | inr m2 => inr m2
                 | inl e => match os.lookup_node m1 (filepath.Clean path) with
                            | Some Directory => inr m1
                            | _ => inl e
                            end
                 end = inr m') as (m1 & Hm1 & Hm').
    { destruct (filepath.last_sep (os.rstrip_sep path)) as [j|];
        [destruct (0 <? j);
         [destruct (os.mkdirAll f (str_take j path) m) eqn:Erec; [done|]|]|];
        eexists; (split; [|exact H]); eauto. }
    clear H. destruct (os.mkdir (filepath.Clean path) m1) eqn:Emk.
    + repeat case_match; simplify_eq. eauto.
    + simplify_eq. eapply mkdir_mono; eauto.
Qed.

Lemma java_write_fs_lookup (p c o n : string) (m : gmap string node) :
  os.lookup_node m (filepath.Clean p) = Some (File c) ->
  os.lookup_node (java_write_fs p c o n m) (filepath.Clean p)
    = Some (File (javaContent c o n)).
Proof.
  intros H. unfold java_write_fs.
  destruct (String.eqb_spec (javaContent c o n) c) as [->|]; [done|].
  by eapply lookup_node_insert_File.
Qed.

Lemma java_prepared_lookup (p c o n : string) (m m2 : gmap string node) (klog : list event) :
  os.lookup_node m (filepath.Clean p) = Some (File c) ->
  java_prepared p c o n m m2 klog ->
  os.lookup_node m2 (filepath.Clean p) = Some (File (javaContent c o n)).
Proof.
  intros H [(oe & _ & _ & ->)|(_ & _ & Hmk)].
  - by apply java_write_fs_lookup.
  - eapply mkdirAll_mono; [exact Hmk|]. by apply java_write_fs_lookup.
Qed.

Lemma processJavaFile_run (p o n : string) (w : World) (r : option error) (w' : World) :
  processJavaFile p o n w = (r, w') -> java_run p o n w r w'.
Proof.
  unfold processJavaFile, Printf, emit, bind, ret.
  destruct (os.ReadFile p _) as [[c oe] w1] eqn:ER.
  apply ReadFile_inv in ER as (Hf1 & Hfs1 & ER). cbn [fs log fault] in Hf1, Hfs1, ER.
  destruct oe as [e|].
  { destruct ER as (errno & -> & Hl & Hwhy). intros [= <- <-].
    apply jr_read_fail; [exact Hwhy | done |].
    by rewrite Hl, <- app_assoc. }
  destruct ER as [Hlk Hl].
  fold (newFilePath p o n).
  lazymatch goal with
  | |- (let (a, w0) := _ in match a with Some e => _ | None => ?K end w0) = _ -> _ =>
      set (rest := K)
  end.
  assert (forall wA, fault wA = fault w ->
            fs wA = java_write_fs p c o n (fs w) ->
            log wA = log w ++ [Stdout ("Processing Java file: " +:+ p);
                               Call SysReadFile p "" None]
                           ++ java_write_log p c o n ->
            rest wA = (r, w') -> java_run p o n w r w') as Hrest.
  { intros wA HfA HfsA HlA. unfold rest. clear rest.
    destruct (strings.Contains p (packagePath o)) eqn:EC.
    2: { intros [= <- <-]. eapply jr_stay; eauto. }
    destruct (String.eqb_spec (newFilePath p o n) p) as [Heq|Hne]; cbn [negb]; cbv beta iota.
    { intros [= <- <-]. eapply jr_stay; eauto. }
    destruct (os.Stat _ wA) as [st w2] eqn:ES.
    apply Stat_inv in ES as (Hf2 & Hfs2 & oe & Hl2 & Hne2).
    destruct (os.IsNotExist st.2) eqn:EN.
    - destruct (os.MkdirAll _ w2) as [me w3] eqn:EM.
      apply MkdirAll_inv in EM as (Hf3 & EM).
      apply proj1 in Hne2. specialize (Hne2 eq_refl). subst oe.
      destruct me as [e|].
      + destruct EM as (errno & -> & Hfs3 & Hl3). intros [= <- <-].
        eapply jr_mkdir_fail; eauto; [congruence|].
        rewrite Hl3, Hl2, HlA. by rewrite <- !app_assoc.
      + destruct EM as (Hnd & Hmk & Hl3).
        destruct (os.Rename _ _ w3) as [re w4] eqn:ERn.
        apply Rename_inv in ERn as (Hf4 & ERn).
        assert (java_prepared p c o n (fs w) (fs w3)
                  [Call SysStat (filepath.Dir (newFilePath p o n)) "" (Some ENOENT);
                   Call SysMkdirAll (filepath.Dir (newFilePath p o n)) "" None]) as Hprep.
        { right. repeat split; [done|]. by rewrite <- HfsA, <- Hfs2. }
        destruct re as [e|].
        * destruct ERn as (errno & -> & Hfs4 & Hl4). intros [= <- <-].
          eapply jr_rename_fail; eauto.
          rewrite Hl4, Hl3, Hl2, HlA. by rewrite <- !app_assoc.
        * destruct ERn as (c2 & Hsrc & Hdst & Hpar & Hfs4 & Hl4). intros [= <- <-].
          rewrite (java_prepared_lookup _ _ _ _ _ _ _ Hlk Hprep) in Hsrc. simplify_eq.
          eapply jr_moved; eauto. cbn [log].
          rewrite Hl4, Hl3, Hl2, HlA. by rewrite <- !app_assoc.
    - destruct (os.Rename _ _ w2) as [re w4] eqn:ERn.
      apply Rename_inv in ERn as (Hf4 & ERn).
      assert (java_prepared p c o n (fs w) (fs w2)
                [Call SysStat (filepath.Dir (newFilePath p o n)) "" oe]) as Hprep.
      { left. exists oe. split; [|split; [done|congruence]].
        intros ->. assert (false = true) by (by apply Hne2). done. }
      destruct re as [e|].
      + destruct ERn as (errno & -> & Hfs4 & Hl4). intros [= <- <-].
        eapply jr_rename_fail; eauto.
        rewrite Hl4, Hl2, HlA. by rewrite <- !app_assoc.
      + destruct ERn as (c2 & Hsrc & Hdst & Hpar & Hfs4 & Hl4). intros [= <- <-].
        rewrite (java_prepared_lookup _ _ _ _ _ _ _ Hlk Hprep) in Hsrc. simplify_eq.
        eapply jr_moved; eauto. cbn [log].
        rewrite Hl4, Hl2, HlA. by rewrite <- !app_assoc. }
  clearbody rest.
  destruct (String.eqb_spec (javaContent c o n) c) as [Heq|Hne]; cbn [negb]; cbv beta iota.
  - apply Hrest; [done| |].
    + unfold java_write_fs. by rewrite Heq, String.eqb_refl.
    + unfold java_write_log. rewrite Heq, String.eqb_refl, Hl.
      by rewrite <- !app_assoc.
  - destruct (os.WriteFile _ _ w1) as [we w2] eqn:EW.
    apply WriteFile_inv in EW as (Hf2 & EW).
    destruct we as [e|].
    + destruct EW as (errno & -> & Hfs2 & Hl2). intros [= <- <-].
      eapply jr_write_fail; eauto; [congruence|].
      rewrite Hl2, Hl. by rewrite <- !app_assoc.
    + destruct EW as [Hfs2 Hl2]. apply Hrest; cbn [fs log fault]; [congruence| |].
      * unfold java_write_fs. apply String.eqb_neq in Hne. rewrite Hne. congruence.
      * unfold java_write_log. apply String.eqb_neq in Hne. rewrite Hne.
        rewrite Hl2, Hl. by rewrite <- !app_assoc.
Qed.

Lemma processBuildFile_run (p o n : string) (w : World) (r : option error) (w' : World) :
  processBuildFile p o n w = (r, w') -> build_run p o n w r w'.
Proof.
  unfold processBuildFile, Printf, emit, bind, ret.
  destruct (os.ReadFile p _) as [[c oe] w1] eqn:ER.
  apply ReadFile_inv in ER as (Hf1 & Hfs1 & ER). cbn [fs log fault] in Hf1, Hfs1, ER.
  destruct oe as [e|].
  { destruct ER as (errno & -> & Hl & Hwhy). intros [= <- <-].
    apply br_read_fail; [exact Hwhy | done |].
    by rewrite Hl, <- app_assoc. }
  destruct ER as [Hlk Hl].
  destruct (String.eqb_spec (buildContent c o n) c) as [Heq|Hne]; cbn [negb]; cbv beta iota.
  - intros [= <- <-]. eapply br_unchanged; eauto. by rewrite Hl, <- app_assoc.
  - destruct (os.WriteFile _ _ w1) as [we w2] eqn:EW.
    apply WriteFile_inv in EW as (Hf2 & EW).
    destruct we as [e|].
    + destruct EW as (errno & -> & Hfs2 & Hl2). intros [= <- <-].
      eapply br_write_fail; eauto; [congruence|].
      rewrite Hl2, Hl. by rewrite <- !app_assoc.
    + destruct EW as [Hfs2 Hl2]. intros [= <- <-].
      eapply br_written; eauto; cbn [fs log]; [congruence|].
      rewrite Hl2, Hl. by rewrite <- !app_assoc.
Qed.

End ProcessorRuns.

(** ** What the Java file processor leaves behind *)

Lemma package_pattern_nonempty (name : string) : "package " +:+ name <> "".
Proof. done. Qed.

Lemma import_pattern_nonempty (name : string) : "import " +:+ name <> "".
Proof. done. Qed.

Lemma java_run_destination (p o n c : string) (w w' : World) :
  os.lookup_node (fs w) (filepath.Clean p) = Some (File c) ->
  java_run p o n w None w' ->
  fs w' !! filepath.Clean (javaDestination p o n) = Some (File (javaContent c o n)).
Proof.
  intros Hlk Hrun. unfold javaDestination.
  inversion Hrun; subst; same_content.
  - match goal with H : fs w' = _ |- _ => rewrite H end.
    apply (lookup_node_File _ _ (javaContent c o n)).
    match goal with H : _ \/ _ |- _ => destruct H as [->| ->] end;
      [|destruct strings.Contains]; by apply java_write_fs_lookup.
  - match goal with H : strings.Contains _ _ = true |- _ => rewrite H end.
    match goal with H : fs w' = _ |- _ => rewrite H end.
    apply lookup_insert_eq.
Qed.

(** C1: a successful run of the Java file processor leaves the file (at the
    place where the run leaves it) with the content obtained by the literal
    replacement of every "package "+old by "package "+new and then of every
    "import "+old by "import "+new -- the one result such a replacement has,
    so nothing else is changed; for instance [package com.old.foo;] becomes
    [package com.new.foo;]. *)
Theorem C1_java_content_rewrite
    (filePath oldName newName content : string) (w w' : World) :
  os.lookup_node (fs w) (filepath.Clean filePath) = Some (File content) ->
  processJavaFile filePath oldName newName w = (None, w') ->
  let c1 := strings.ReplaceAll content ("package " +:+ oldName) ("package " +:+ newName) in
  let c2 := strings.ReplaceAll c1 ("import " +:+ oldName) ("import " +:+ newName) in
  replaced_all ("package " +:+ oldName) ("package " +:+ newName) content c1
  /\ (forall t, replaced_all ("package " +:+ oldName) ("package " +:+ newName) content t ->
                t = c1)
  /\ replaced_all ("import " +:+ oldName) ("import " +:+ newName) c1 c2
  /\ (forall t, replaced_all ("import " +:+ oldName) ("import " +:+ newName) c1 t -> t = c2)
  /\ fs w' !! filepath.Clean (javaDestination filePath oldName newName) = Some (File c2)
  /\ javaContent "package com.old.foo;" "com.old" "com.new" = "package com.new.foo;".
Proof.
  intros Hlk Hrun c1 c2. apply processJavaFile_run in Hrun.
  pose proof (ReplaceAll_replaced_all content _ ("package " +:+ newName)
                (package_pattern_nonempty oldName)) as H1.
  pose proof (ReplaceAll_replaced_all c1 _ ("import " +:+ newName)
                (import_pattern_nonempty oldName)) as H2.
  split; [exact H1|].
  split; [intros t Ht; exact (replaced_all_functional _ _ _ _ _ Ht H1)|].
  split; [exact H2|].
  split; [intros t Ht; exact (replaced_all_functional _ _ _ _ _ Ht H2)|].
  split; [exact (java_run_destination _ _ _ _ _ _ Hlk Hrun)|].
  vm_compute. reflexivity.
Qed.

Lemma C1_java_content_rewrite_witness :
  os.lookup_node (fs sample_world) (filepath.Clean "proj/src/com/old/Foo.java")
    = Some (File "package com.old.foo;")
  /\ sample_java_run.1 = None
  /\ fs sample_java_run.2 !! "proj/src/com/new/Foo.java" = Some (File "package com.new.foo;").
Proof.
  split; [vm_compute; reflexivity|]. split; [vm_compute; reflexivity|].
  refine (proj1 (proj2 (proj2 (proj2 (proj2
    (C1_java_content_rewrite "proj/src/com/old/Foo.java" "com.old" "com.new"
       "package com.old.foo;" sample_world _ _ _)))))).
  - vm_compute. reflexivity.
  - vm_compute. reflexivity.
Defined.

(** Replacing once rewrites exactly the first occurrence. *)
Lemma Replace_first_occurrence (s old new : string) :
  strings.Contains s old = true ->
  exists a b, s = a +:+ old +:+ b
              /\ strings.Index s old = Some (len a)
              /\ strings.Replace s old new 1 = a +:+ new +:+ b.
Proof.
  unfold strings.Contains. destruct (strings.Index s old) as [j|] eqn:E; [|done].
  intros _. exists (str_take j s), (str_drop (j + len old) s).
  pose proof (Index_bound _ _ _ E) as Hb.
  split; [by apply Index_Some_split|].
  split; [by rewrite len_str_take by lia|]. by apply Replace_1.
Qed.

Lemma java_run_moved (p o n c : string) (w w' : World) :
  os.lookup_node (fs w) (filepath.Clean p) = Some (File c) ->
  java_run p o n w None w' ->
  strings.Contains p (packagePath o) = true ->
  let target := newFilePath p o n in
  (filepath.Clean target <> filepath.Clean p -> fs w' !! filepath.Clean p = None)
  /\ (target <> p ->
      os.lookup_node (fs w') (filepath.Dir (filepath.Clean target)) = Some Directory).
Proof.
  intros Hlk Hrun HC target.
  inversion Hrun; subst; inline_lets; same_content.
  - match goal with H : _ \/ _ |- _ => destruct H as [Hs|Hs] end; [congruence|].
    split; intros Hne; [by rewrite Hs in Hne|done].
  - match goal with H : fs w' = _ |- _ => rewrite H end.
    match goal with H : java_prepared _ _ _ _ _ _ _ |- _ =>
      pose proof (java_prepared_lookup _ _ _ _ _ _ _ Hlk H) as Hsrc end.
    split; intros Hne.
    + rewrite lookup_insert_ne by done. apply lookup_delete_eq.
    + match goal with
      | Hpar : os.lookup_node m2 (filepath.Dir _) = Some Directory,
        Hdst : os.lookup_node m2 _ <> Some Directory |- _ =>
          revert Hpar Hdst Hsrc
      end.
      unfold os.lookup_node.
      destruct (String.eqb (filepath.Dir (filepath.Clean (newFilePath p o n))) "."
                || String.eqb (filepath.Dir (filepath.Clean (newFilePath p o n))) "/");
        [done|].
      intros Hpar Hdst Hsrc.
      rewrite lookup_insert_ne.
      * rewrite lookup_delete_ne; [done|]. intros E. rewrite <- E in Hpar.
        destruct (String.eqb (filepath.Clean p) "." || String.eqb (filepath.Clean p) "/");
          congruence.
      * intros E. rewrite <- E in Hpar.
        destruct (String.eqb (filepath.Clean (newFilePath p o n)) "."
                  || String.eqb (filepath.Clean (newFilePath p o n)) "/"); congruence.
Qed.

Lemma java_run_not_moved (p o n c : string) (w w' : World) (r : option error) :
  os.lookup_node (fs w) (filepath.Clean p) = Some (File c) ->
  java_run p o n w r w' ->
  strings.Contains p (packagePath o) = false ->
  log w' = log w ++ [Stdout ("Processing Java file: " +:+ p);
                     Call SysReadFile p "" None] ++ java_write_log p c o n
  \/ exists errno,
       log w' = log w ++ [Stdout ("Processing Java file: " +:+ p);
                          Call SysReadFile p "" (Some errno)]
       \/ log w' = log w ++ [Stdout ("Processing Java file: " +:+ p);
                             Call SysReadFile p "" None;
                             Call SysWriteFile p (javaContent c o n) (Some errno)].
Proof.
  intros Hlk Hrun HC. inversion Hrun; subst; same_content; try congruence; eauto.
Qed.

(** C2: after a successful run on a file whose path contains the old
    package path, the file is at the path obtained by replacing the first
    occurrence of the old package path by the new one, it is no longer at
    its old place, and the directory holding it exists; a file whose path
    does not contain the old package path stays where it is: the run makes
    no call other than reading and (if the content changed) writing it. *)
Theorem C2_java_file_move
    (filePath oldName newName content : string) (w w' : World) :
  os.lookup_node (fs w) (filepath.Clean filePath) = Some (File content) ->
  processJavaFile filePath oldName newName w = (None, w') ->
  let oldPath := packagePath oldName in
  let newPath := packagePath newName in
  let target := newFilePath filePath oldName newName in
  (strings.Contains filePath oldPath = true ->
     (exists a b, filePath = a +:+ oldPath +:+ b
                  /\ strings.Index filePath oldPath = Some (len a)
                  /\ target = a +:+ newPath +:+ b)
     /\ fs w' !! filepath.Clean target = Some (File (javaContent content oldName newName))
     /\ (filepath.Clean target <> filepath.Clean filePath ->
         fs w' !! filepath.Clean filePath = None)
     /\ (target <> filePath ->
         os.lookup_node (fs w') (filepath.Dir (filepath.Clean target)) = Some Directory))
  /\ (strings.Contains filePath oldPath = false ->
        fs w' !! filepath.Clean filePath = Some (File (javaContent content oldName newName))
        /\ fs w' = java_write_fs filePath content oldName newName (fs w)
        /\ log w' = log w ++ [Stdout ("Processing Java file: " +:+ filePath);
                              Call SysReadFile filePath "" None]
                          ++ java_write_log filePath content oldName newName).
Proof.
  intros Hlk Hrun oldPath newPath target. apply processJavaFile_run in Hrun.
  pose proof (java_run_destination _ _ _ _ _ _ Hlk Hrun) as Hdest.
  unfold javaDestination in Hdest. fold oldPath target in Hdest.
  split; intros HC; rewrite HC in Hdest.
  - split; [by apply Replace_first_occurrence|]. split; [done|].
    by apply (java_run_moved _ _ _ _ _ _ Hlk Hrun).
  - split; [done|].
    inversion Hrun; subst; same_content; try (unfold oldPath in HC; congruence).
    by split.
Qed.

Lemma C2_java_file_move_witness :
  os.lookup_node (fs sample_world) (filepath.Clean "proj/src/com/old/Foo.java")
    = Some (File "package com.old.foo;")
  /\ sample_java_run.1 = None
  /\ fs sample_java_run.2 !! "proj/src/com/new/Foo.java" = Some (File "package com.new.foo;")
  /\ fs sample_java_run.2 !! "proj/src/com/old/Foo.java" = None
  /\ os.lookup_node (fs sample_java_run.2) "proj/src/com/new" = Some Directory.
Proof.
  split; [vm_compute; reflexivity|]. split; [vm_compute; reflexivity|].
  assert (os.lookup_node (fs sample_world) (filepath.Clean "proj/src/com/old/Foo.java")
          = Some (File "package com.old.foo;")) as Hlk by (vm_compute; reflexivity).
  assert (processJavaFile "proj/src/com/old/Foo.java" "com.old" "com.new" sample_world
          = (None, sample_java_run.2)) as Hrun by (vm_compute; reflexivity).
  destruct (C2_java_file_move _ _ _ _ _ _ Hlk Hrun) as [Hmove _].
  destruct Hmove as (_ & Hat & Hgone & Hdir); [vm_compute; reflexivity|].
  split; [exact Hat|]. split.
  - apply Hgone. vm_compute. discriminate.
  - apply Hdir. vm_compute. discriminate.
Defined.

Lemma java_run_log (p o n : string) (w w' : World) (r : option error) :
  java_run p o n w r w' -> exists evs, log w' = log w ++ evs.
Proof. intros H. inversion H; subst; eauto. Qed.

Lemma build_run_log (p o n : string) (w w' : World) (r : option error) :
  build_run p o n w r w' -> exists evs, log w' = log w ++ evs.
Proof. intros H. inversion H; subst; eauto. Qed.

Lemma java_run_writes (p o n c : string) (w w' : World) (r : option error) :
  os.lookup_node (fs w) (filepath.Clean p) = Some (File c) ->
  fault w SysReadFile p = None ->
  java_run p o n w r w' ->
  exists evs, log w' = log w ++ evs
    /\ ((exists e, In (Call SysWriteFile p (javaContent c o n) e) evs)
        <-> javaContent c o n <> c)
    /\ (forall q d e, In (Call SysWriteFile q d e) evs -> q = p /\ d = javaContent c o n).
Proof.
  intros Hlk Hf Hrun.
  inversion Hrun; subst; inline_lets; same_content;
    try (exfalso; by match goal with H : _ -> forall _, _ <> _ |- _ => eapply H end);
    (eexists; split; [eassumption|]);
    try split_prepared;
    unfold java_write_log;
    destruct (String.eqb_spec (javaContent c o n) c) as [Heq|Hne];
    simpl; naive_solver.
Qed.

Lemma build_run_writes (p o n c : string) (w w' : World) (r : option error) :
  os.lookup_node (fs w) (filepath.Clean p) = Some (File c) ->
  fault w SysReadFile p = None ->
  build_run p o n w r w' ->
  exists evs, log w' = log w ++ evs
    /\ ((exists e, In (Call SysWriteFile p (buildContent c o n) e) evs)
        <-> buildContent c o n <> c)
    /\ (forall q d e, In (Call SysWriteFile q d e) evs -> q = p /\ d = buildContent c o n).
Proof.
  intros Hlk Hf Hrun.
  inversion Hrun; subst; same_content;
    try (exfalso; by match goal with H : _ -> forall _, _ <> _ |- _ => eapply H end);
    (eexists; split; [eassumption|]); simpl; naive_solver.
Qed.

Lemma java_run_unchanged (p o n c : string) (w w' : World) (r : option error) :
  os.lookup_node (fs w) (filepath.Clean p) = Some (File c) ->
  java_run p o n w r w' ->
  javaContent c o n = c ->
  match r with
  | None => fs w' !! filepath.Clean (javaDestination p o n) = Some (File c)
  | Some _ => fs w' !! filepath.Clean p = Some (File c)
  end.
Proof.
  intros Hlk Hrun Heq.
  assert (File (javaContent c o n) = File c) as Hj by congruence.
  rewrite <- Hj. destruct r as [e|].
  - apply lookup_node_File.
    inversion Hrun; subst; inline_lets; same_content; try congruence.
    + match goal with H : fs w' = _ |- _ => rewrite H end.
      by apply java_write_fs_lookup.
    + eapply java_prepared_lookup; eauto.
  - by eapply java_run_destination.
Qed.

(** C6: a processor that has read the file calls [os.WriteFile] if and only
    if the rewritten content differs from the content read, and then on that
    file with the rewritten content; when the content is unchanged the file
    keeps the content it had (the build-file processor leaves the whole file
    system as it was). *)
Theorem C6_write_iff_changed
    (filePath oldName newName content : string) (w : World) :
  os.lookup_node (fs w) (filepath.Clean filePath) = Some (File content) ->
  fault w SysReadFile filePath = None ->
  let jrun := processJavaFile filePath oldName newName w in
  let brun := processBuildFile filePath oldName newName w in
  let jc := javaContent content oldName newName in
  let bc := buildContent content oldName newName in
  (exists evs, log jrun.2 = log w ++ evs
     /\ ((exists e, In (Call SysWriteFile filePath jc e) evs) <-> jc <> content)
     /\ (forall q d e, In (Call SysWriteFile q d e) evs -> q = filePath /\ d = jc)
     /\ (jc = content ->
         match jrun.1 with
         | None => fs jrun.2 !! filepath.Clean (javaDestination filePath oldName newName)
                   = Some (File content)
         | Some _ => fs jrun.2 !! filepath.Clean filePath = Some (File content)
         end))
  /\ (exists evs, log brun.2 = log w ++ evs
     /\ ((exists e, In (Call SysWriteFile filePath bc e) evs) <-> bc <> content)
     /\ (forall q d e, In (Call SysWriteFile q d e) evs -> q = filePath /\ d = bc)
     /\ (bc = content -> fs brun.2 = fs w)).
Proof.
  intros Hlk Hf jrun brun jc bc. split.
  - subst jrun. destruct (processJavaFile filePath oldName newName w) as [r w'] eqn:E.
    apply processJavaFile_run in E.
    destruct (java_run_writes _ _ _ _ _ _ _ Hlk Hf E) as (evs & Hl & Hiff & Honly).
    exists evs. split; [done|]. split; [exact Hiff|]. split; [exact Honly|].
    intros Heq. by apply (java_run_unchanged _ _ _ _ _ _ _ Hlk E).
  - subst brun. destruct (processBuildFile filePath oldName newName w) as [r w'] eqn:E.
    apply processBuildFile_run in E.
    destruct (build_run_writes _ _ _ _ _ _ _ Hlk Hf E) as (evs & Hl & Hiff & Honly).
    exists evs. split; [done|]. split; [exact Hiff|]. split; [exact Honly|].
    intros Heq. subst bc. cbn [snd].
    inversion E; subst; same_content; congruence.
Qed.

Lemma C6_write_iff_changed_witness :
  os.lookup_node (fs sample_world) (filepath.Clean "proj/pom.xml")
    = Some (File "<groupId>com.old</groupId>")
  /\ fault sample_world SysReadFile "proj/pom.xml" = None
  /\ exists evs, log sample_build_run.2 = log sample_world ++ evs
     /\ ((exists e, In (Call SysWriteFile "proj/pom.xml" "<groupId>com.new</groupId>" e) evs)
         <-> "<groupId>com.new</groupId>" <> "<groupId>com.old</groupId>").
Proof.
  split; [vm_compute; reflexivity|]. split; [reflexivity|].
  destruct (C6_write_iff_changed "proj/pom.xml" "com.old" "com.new"
              "<groupId>com.old</groupId>" sample_world)
    as [_ (evs & Hl & Hiff & _)]; [vm_compute; reflexivity|reflexivity|].
  exists evs. split; [exact Hl|].
  replace "<groupId>com.new</groupId>"
    with (buildContent "<groupId>com.old</groupId>" "com.old" "com.new")
    by (vm_compute; reflexivity).
  exact Hiff.
Defined.

(** ** Running a processor twice *)





(** ** The path rewrite and the project root *)

Lemma Replace_1_app (root rest old new : string) :
  strings.Contains root old = true ->
  strings.Replace (root +:+ rest) old new 1 = strings.Replace root old new 1 +:+ rest.
Proof.
  unfold strings.Contains. destruct (strings.Index root old) as [j|] eqn:E; [|done].
  intros _. pose proof (Index_bound _ _ _ E) as Hb.
  rewrite (Replace_1 _ _ _ _ (Index_app_l _ rest _ _ E)), (Replace_1 _ _ _ _ E).
  rewrite str_take_app_le by lia. rewrite str_drop_app_le by lia.
  by rewrite !str_app_assoc.
Qed.

(** C10: the path rewrite looks at the whole path, project root included:
    when the root given with --dir contains the old package path, the first
    occurrence -- the one that is replaced -- lies in the root, so the file
    path under the root, package directories included, is left as it is. *)
Theorem C10_rewrite_hits_root_prefix (root rest oldName newName : string) :
  strings.Contains root (packagePath oldName) = true ->
  newFilePath (root +:+ rest) oldName newName
  = newFilePath root oldName newName +:+ rest.
Proof. apply Replace_1_app. Qed.

Lemma C10_rewrite_hits_root_prefix_witness :
  strings.Contains "/home/com/old/proj" (packagePath "com.old") = true
  /\ newFilePath ("/home/com/old/proj" +:+ "/src/com/old/Foo.java") "com.old" "com.new"
     = "/home/com/new/proj/src/com/old/Foo.java"
  /\ nested_main_run.1 = Exit0
  /\ fs nested_main_run.2 !! "/home/com/new/proj/src/com/old/Foo.java"
     = Some (File "package com.new;")
  /\ fs nested_main_run.2 !! "/home/com/old/proj/src/com/new/Foo.java" = None
  /\ fs nested_main_run.2 !! "/home/com/old/proj/src/com/old/Foo.java" = None.
Proof.
  split; [vm_compute; reflexivity|]. split.
  - rewrite C10_rewrite_hits_root_prefix by (vm_compute; reflexivity).
    vm_compute. reflexivity.
  - repeat split; vm_compute; reflexivity.
Defined.

(** ** Paths and entry names *)
Section PathFacts.



















End PathFacts.

(** ** Errors name the path and the cause *)

Lemma Contains_intro (s x a b : string) : s = a +:+ x +:+ b -> strings.Contains s x = true.
Proof.
  intros ->. unfold strings.Contains. by destruct (Index_occurs a x b) as [j ->].
Qed.

Lemma reports_PathError (op q : string) (errno : Errno) :
  reports (PathError op q errno) q errno.
Proof.
  repeat split; simpl.
  - by apply (Contains_intro _ _ (op +:+ " ") (": " +:+ Errno_Error errno)); rewrite !str_app_assoc.
  - apply (Contains_intro _ _ (op +:+ " " +:+ q +:+ ": ") "").
    by rewrite !str_app_assoc, str_app_nil_r.
Qed.

Lemma reports_Errorf_PathError (prefix op q : string) (errno : Errno) :
  reports (Errorf_w prefix (PathError op q errno)) q errno.
Proof.
  repeat split; simpl.
  - apply (Contains_intro _ _ (prefix +:+ ": " +:+ op +:+ " ") (": " +:+ Errno_Error errno)).
    by rewrite !str_app_assoc.
  - apply (Contains_intro _ _ (prefix +:+ ": " +:+ op +:+ " " +:+ q +:+ ": ") "").
    by rewrite !str_app_assoc, str_app_nil_r.
Qed.

Lemma reports_Errorf_LinkError (prefix op q q' : string) (errno : Errno) :
  reports (Errorf_w prefix (LinkError op q q' errno)) q errno.
Proof.
  repeat split; simpl.
  - apply (Contains_intro _ _ (prefix +:+ ": " +:+ op +:+ " ")
             (" " +:+ q' +:+ ": " +:+ Errno_Error errno)).
    by rewrite !str_app_assoc.
  - apply (Contains_intro _ _ (prefix +:+ ": " +:+ op +:+ " " +:+ q +:+ " " +:+ q' +:+ ": ") "").
    by rewrite !str_app_assoc, str_app_nil_r.
Qed.

(** ** What a processor run adds to the log *)

Ltac solve_clean :=
  unfold clean;
  repeat (apply List.Forall_cons;
          [simpl; try tauto;
           try (intros [Hf1 Hf2]; first [by apply Hf1 | by apply Hf2])|]);
  apply List.Forall_nil.

Ltac solve_proc :=
  repeat (apply List.Forall_cons; [simpl; try done|]); apply List.Forall_nil.

Ltac solve_failing :=
  unfold failing; simpl; do 4 eexists;
  split; [reflexivity|];
  split; [solve_clean|];
  split; [congruence|];
  first [apply reports_Errorf_PathError | apply reports_Errorf_LinkError
        | apply reports_PathError].

Ltac solve_outcome :=
  unfold outcome; cbn [is_SkipDir Errorf_w]; first [solve_clean | solve_failing].

Lemma javaContent_same (c name : string) : javaContent c name name = c.
Proof. unfold javaContent. by rewrite !ReplaceAll_same. Qed.

Lemma buildContent_same (c name : string) : buildContent c name name = c.
Proof.
  unfold buildContent. rewrite !ReplaceAll_same.
  by repeat (case_match; rewrite ?ReplaceAll_same).
Qed.

Lemma newFilePath_same (p name : string) : newFilePath p name name = p.
Proof. apply Replace_same. Qed.

Lemma java_run_post (p o n : string) (w w' : World) (r : option error) :
  java_run p o n w r w' ->
  exists evs, log w' = log w ++ evs
    /\ Forall (proc_ev p) evs
    /\ outcome evs r
    /\ (o = n -> fs w' = fs w).
Proof.
  intros Hrun.
  inversion Hrun; subst; inline_lets;
    (eexists; split; [eassumption|]);
    try split_prepared; unfold java_write_log;
    try destruct (String.eqb_spec (javaContent content o n) content) as [Heq|Hne];
    simpl app;
    (split; [solve_proc|]);
    (split; [solve_outcome|]);
    intros ->;
    try (by (exfalso; first [apply Hne, javaContent_same
                            | match goal with H : newFilePath _ _ _ <> _ |- _ =>
                                apply H, newFilePath_same end]));
    try done;
    match goal with H : fs w' = _ |- _ => rewrite H end;
    unfold java_write_fs; by rewrite javaContent_same, String.eqb_refl.
Qed.

Lemma build_run_post (p o n : string) (w w' : World) (r : option error) :
  build_run p o n w r w' ->
  exists evs, log w' = log w ++ evs
    /\ Forall (proc_ev p) evs
    /\ outcome evs r
    /\ (o = n -> fs w' = fs w).
Proof.
  intros Hrun.
  inversion Hrun; subst;
    (eexists; split; [eassumption|]);
    (split; [solve_proc|]);
    (split; [solve_outcome|]);
    intros ->; try done.
  all: exfalso; match goal with H : buildContent _ _ _ <> _ |- _ =>
                  apply H, buildContent_same end.
Qed.

(** ** The walk *)
Section WalkFacts.

Variables root o n : string.

Lemma outcome_app (a b : list event) (r : option error) :
  clean a -> outcome b r -> outcome (a ++ b) r.
Proof.
  intros Ha. unfold outcome.
  assert (clean b -> clean (a ++ b)) as Hcl by (by apply Forall_app_2).
  destruct r as [e|]; [|done]. destruct (is_SkipDir (Some e)); [done|].
  intros (sc & q & arg & errno & Hlast & Hb & Hsc & Hrep).
  exists sc, q, arg, errno. rewrite last_app, Hlast.
  rewrite removelast_app by (intros ->; done).
  split; [done|]. split; [by apply Forall_app_2|]. done.
Qed.

Lemma walk_post_refl (w : World) : walk_post root o n w w (Returned None).
Proof. exists []. rewrite app_nil_r. repeat split; try done; constructor. Qed.

Lemma walk_post_trans (w w1 w2 : World) (st : status) :
  walk_post root o n w w1 (Returned None) ->
  walk_post root o n w1 w2 st ->
  walk_post root o n w w2 st.
Proof.
  intros (a & Hla & Hoka & Hfa & Hca) (b & Hlb & Hokb & Hfb & Hcb).
  exists (a ++ b). split; [by rewrite Hlb, Hla, app_assoc|].
  split; [by apply Forall_app_2|]. split; [intros E; by rewrite Hfb, Hfa|].
  simpl in Hca. destruct st as [r|]; [by apply outcome_app|by apply Forall_app_2].
Qed.

Lemma walk_post_skip (w w' : World) (e : error) :
  walk_post root o n w w' (Returned (Some e)) -> is_SkipDir (Some e) = true ->
  walk_post root o n w w' (Returned None).
Proof.
  intros (a & Hla & Hoka & Hfa & Hca) Hs. exists a. repeat split; try done.
  unfold outcome in *. by rewrite Hs in Hca.
Qed.

Lemma walk_post_fuel (w w' : World) :
  walk_post root o n w w' (Returned None) -> walk_post root o n w w' OutOfFuel.
Proof. intros (a & ? & ? & ? & ?). by exists a. Qed.

Lemma walk_post_failed_call (sc : syscall) (q arg : string) (errno : Errno)
    (e : error) (w w' : World) :
  fs w' = fs w -> log w' = log w ++ [Call sc q arg (Some errno)] ->
  ev_ok root (Call sc q arg (Some errno)) -> sc <> SysStat -> reports e q errno ->
  walk_post root o n w w' (Returned (Some e)).
Proof.
  intros Hfs Hl Hok Hsc Hrep. exists [Call sc q arg (Some errno)].
  split; [done|]. split; [by constructor|]. split; [done|].
  unfold outcome. destruct Hrep as (? & ? & Hs & ?). rewrite Hs.
  exists sc, q, arg, errno. repeat split; try done. constructor.
Qed.

Lemma walk_post_ok_call (sc : syscall) (q arg : string) (w w' : World) :
  fs w' = fs w -> log w' = log w ++ [Call sc q arg None] ->
  ev_ok root (Call sc q arg None) ->
  walk_post root o n w w' (Returned None).
Proof.
  intros Hfs Hl Hok. exists [Call sc q arg None].
  split; [done|]. split; [by constructor|]. split; [done|]. solve_clean.
Qed.

Lemma Lstat_post (name : string) (w w' : World)
    (r : option FileInfo * option error) :
  visited root name -> os.Lstat name w = (r, w') ->
  (exists info, r = (Some info, None) /\ Name info = os.basename name
                /\ walk_post root o n w w' (Returned None))
  \/ (exists e, r = (None, Some e) /\ is_SkipDir (Some e) = false
                /\ walk_post root o n w w' (Returned (Some e))).
Proof.
  intros Hv H. apply Lstat_inv in H as (_ & Hfs & [(info & -> & Hn & Hl)|(errno & -> & Hl)]).
  - left. exists info. repeat split; try done. by eapply walk_post_ok_call.
  - right. eexists. repeat split; try done.
    eapply walk_post_failed_call; eauto; try done; apply reports_PathError.
Qed.

Lemma readDirNames_post (name : string) (w w' : World) (names : list string)
    (oe : option error) :
  visited root name -> os.readDirNames name w = ((names, oe), w') ->
  match oe with
  | None => Forall simple_name names /\ walk_post root o n w w' (Returned None)
  | Some e => is_SkipDir (Some e) = false /\ walk_post root o n w w' (Returned (Some e))
  end.
Proof.
  intros Hv H. apply readDirNames_inv in H as (_ & Hfs & H). destruct oe as [e|].
  - destruct H as (errno & -> & Hl). split; [done|].
    eapply walk_post_failed_call; eauto; try done; apply reports_PathError.
  - destruct H as [Hs Hl]. split; [done|]. by eapply walk_post_ok_call.
Qed.

Lemma proc_ev_ok (p : string) (ev : event) :
  visited root p -> dispatchable (os.basename p) = true -> proc_ev p ev -> ev_ok root ev.
Proof. intros Hv Hd. destruct ev as [[] q arg oe| |]; simpl; naive_solver. Qed.

Lemma visit_post (path : string) (info : FileInfo) (w w' : World) (r : option error) :
  visited root path -> Name info = os.basename path ->
  visit o n path (Some info) None w = (r, w') ->
  walk_post root o n w w' (Returned r)
  /\ (IsDir info = true -> r = None -> skipped (os.basename path) = false).
Proof.
  intros Hv Hn. unfold visit. fold (skipped (Name info)).
  destruct (IsDir info) eqn:Ed; cbn [andb negb].
  - destruct (skipped (Name info)) eqn:Es.
    + intros [= <- <-]. split; [|done]. exists []. rewrite app_nil_r.
      repeat split; try done; constructor.
    + intros [= <- <-]. split; [apply walk_post_refl|]. by rewrite <- Hn.
  - split; [|done]. revert H.
    destruct (strings.HasSuffix (Name info) ".java") eqn:Ej.
    + intros H. apply processJavaFile_run, java_run_post in H
        as (evs & Hl & Hp & Ho & Hfs).
      exists evs. repeat split; try done.
      eapply Forall_impl; [exact Hp|]. intros ev. apply proc_ev_ok; [done|].
      unfold dispatchable. by rewrite <- Hn, Ej.
    + destruct (String.eqb (Name info) "pom.xml" || String.eqb (Name info) "build.gradle")
        eqn:Eb.
      * intros H. apply processBuildFile_run, build_run_post in H
          as (evs & Hl & Hp & Ho & Hfs).
        exists evs. repeat split; try done.
        eapply Forall_impl; [exact Hp|]. intros ev. apply proc_ev_ok; [done|].
        unfold dispatchable. by rewrite <- Hn, Ej, Eb.
      * intros [= <- <-]. apply walk_post_refl.
Qed.

Lemma walk_names_post (rec : string -> FileInfo -> IO status) (path : string) :
  visited root path -> skipped (os.basename path) = false ->
  (forall name info w st w',
     simple_name name -> Name info = os.basename (filepath.Join path name) ->
     rec (filepath.Join path name) info w = (st, w') ->
     walk_post root o n w w' st) ->
  forall names w st w',
    Forall simple_name names ->
    Walker.walk_names rec (visit o n) path names w = (st, w') ->
    walk_post root o n w w' st.
Proof.
  intros Hv Hs Hrec names. induction names as [|name rest IH]; intros w st w' Hnames.
  - intros [= <- <-]. apply walk_post_refl.
  - apply Forall_cons in Hnames as [Hname Hrest].
    assert (visited root (filepath.Join path name)) as Hvc by (by constructor).
    cbn [Walker.walk_names]. unfold bind at 1.
    destruct (os.Lstat _ w) as [r w1] eqn:EL.
    apply (Lstat_post _ _ _ _ Hvc) in EL
      as [(info & -> & Hn & Hstep)|(e & -> & Hne & Hstep)].
    + unfold bind at 1. destruct (rec _ info w1) as [st1 w2] eqn:ER.
      apply (Hrec _ _ _ _ _ Hname Hn) in ER.
      pose proof (walk_post_trans _ _ _ _ Hstep ER) as Hstep2.
      destruct st1 as [[e|]|].
      * destruct (negb (IsDir info) || negb (is_SkipDir (Some e))) eqn:Ec.
        -- by intros [= <- <-].
        -- intros H. apply (IH _ _ _ Hrest) in H.
           eapply walk_post_trans; [|exact H].
           apply (walk_post_skip _ _ e); [done|].
           apply orb_false_iff in Ec as [_ Ec]. by destruct (is_SkipDir (Some e)).
      * intros H. apply (IH _ _ _ Hrest) in H. by eapply walk_post_trans.
      * by intros [= <- <-].
    + cbn [visit]. unfold bind at 1, ret at 1. rewrite Hne. cbn [negb].
      by intros [= <- <-].
Qed.

Lemma walk_post_spec (fuel : nat) :
  forall path info w st w',
    visited root path -> Name info = os.basename path ->
    Walker.walk fuel (visit o n) path info w = (st, w') ->
    walk_post root o n w w' st.
Proof.
  induction fuel as [|f IH]; intros path info w st w' Hv Hn.
  - intros [= <- <-]. apply walk_post_fuel, walk_post_refl.
  - cbn [Walker.walk]. destruct (IsDir info) eqn:Ed; cbn [negb].
    + unfold bind at 1. destruct (os.readDirNames path w) as [[names oe] w1] eqn:ERd.
      apply (readDirNames_post _ _ _ _ _ Hv) in ERd.
      destruct oe as [e|].
      * destruct ERd as [Hne Hstep]. cbn [visit]. unfold bind at 1, ret at 1.
        by intros [= <- <-].
      * destruct ERd as [Hnames Hstep]. unfold bind at 1.
        destruct (visit o n path (Some info) None w1) as [r w2] eqn:EV.
        apply (visit_post _ _ _ _ _ Hv Hn) in EV as [Hvisit Hskip].
        pose proof (walk_post_trans _ _ _ _ Hstep Hvisit) as Hstep2.
        destruct r as [e|]; [by intros [= <- <-]|].
        intros H. eapply walk_post_trans; [exact Hstep2|].
        eapply walk_names_post; [done|by apply Hskip| |exact Hnames|exact H].
        intros name info' wa sta wb Hname Hn' Hrun.
        eapply IH; [|exact Hn'|exact Hrun]. constructor; [done|by apply Hskip|done].
    + unfold bind at 1. destruct (visit o n path (Some info) None w) as [r w1] eqn:EV.
      apply (visit_post _ _ _ _ _ Hv Hn) in EV as [Hvisit _].
      by intros [= <- <-].
Qed.

Lemma Walk_post (fuel : nat) (w w' : World) (st : status) :
  Walker.Walk fuel root (visit o n) w = (st, w') ->
  walk_post root o n w w' st /\ st <> Returned (Some SkipDir) /\ st <> Returned (Some SkipAll).
Proof.
  unfold Walker.Walk. unfold bind at 1.
  destruct (os.Lstat root w) as [r w1] eqn:EL.
  apply (Lstat_post _ _ _ _ (visited_root root)) in EL
    as [(info & -> & Hn & Hstep)|(e & -> & Hne & Hstep)].
  - unfold bind at 1. destruct (Walker.walk fuel _ root info w1) as [st1 w2] eqn:EW.
    apply (walk_post_spec _ _ _ _ _ _ (visited_root root) Hn) in EW.
    pose proof (walk_post_trans _ _ _ _ Hstep EW) as Hall.
    destruct st1 as [[e|]|]; cbn [is_SkipDir is_SkipAll orb].
    + destruct e; cbn [orb]; intros [= <- <-];
        try (split; [done|split; congruence]).
      exfalso. destruct Hall as (evs & _ & _ & _ & Hout). simpl in Hout.
        by destruct Hout as (? & ? & ? & ? & _ & _ & _ & _ & _ & _ & ?).
    + intros [= <- <-]. split; [done|split; congruence].
    + intros [= <- <-]. split; [done|split; congruence].
  - cbn [visit]. unfold bind at 1, ret at 1. unfold bind at 1, ret at 1.
    destruct e; cbn [is_SkipDir is_SkipAll orb]; try done;
      try (intros [= <- <-]; (split; [done|split; congruence])).
    exfalso. destruct Hstep as (evs & _ & _ & _ & Hout). simpl in Hout.
    by destruct Hout as (? & ? & ? & ? & _ & _ & _ & _ & _ & _ & ?).
Qed.

End WalkFacts.

(** ** The whole program *)

Lemma Contains_app_r (a s x : string) :
  strings.Contains s x = true -> strings.Contains (a +:+ s) x = true.
Proof.
  unfold strings.Contains at 1. destruct (strings.Index s x) as [j|] eqn:E; [|done].
  intros _. apply (Contains_intro _ _ (a +:+ str_take j s) (str_drop (j + len x) s)).
  by rewrite str_app_assoc, <- (Index_Some_split _ _ _ E).
Qed.

Lemma failing_is_last (evs pre post : list event) (ev : event) (e : error) :
  failing evs e -> evs = pre ++ ev :: post -> is_failure ev ->
  post = [] /\ exists sc q arg errno, ev = Call sc q arg (Some errno) /\ reports e q errno.
Proof.
  intros (sc & q & arg & errno & Hlast & Hcl & _ & Hrep) -> Hf.
  destruct post as [|ev' post].
  - split; [done|]. rewrite last_snoc in Hlast. simplify_eq. eauto 10.
  - exfalso. rewrite removelast_app in Hcl by done.
    apply Forall_app in Hcl as [_ Hcl]. simpl in Hcl.
    by apply Forall_cons in Hcl as [Hcl _].
Qed.

Lemma main_flags (fuel : nat) (dir o n : string) (w : World) :
  dir = "" \/ o = "" \/ n = "" ->
  main fuel dir o n w
  = (Fatal "All flags --dir, --old, and --new are required.",
     mkWorld (fs w) (fault w) (log w ++ [Usage])).
Proof.
  intros H. unfold main.
  replace (String.eqb dir "" || String.eqb o "" || String.eqb n "") with true; [done|].
  symmetry. destruct H as [->|[->| ->]]; rewrite ?orb_true_r; done.
Qed.

Lemma main_post (fuel : nat) (dir o n : string) (w : World) (ex : exit) (w' : World) :
  main fuel dir o n w = (ex, w') ->
  ((dir = "" \/ o = "" \/ n = "")
   /\ ex = Fatal "All flags --dir, --old, and --new are required."
   /\ fs w' = fs w /\ log w' = log w ++ [Usage])
  \/ (dir <> "" /\ o <> "" /\ n <> ""
      /\ exists evs, log w' = log w ++ evs
         /\ Forall (ev_ok dir) evs
         /\ (o = n -> fs w' = fs w)
         /\ match ex with
            | Fatal msg => exists e, msg = "Error walking the directory: " +:+ Error e
                                     /\ failing evs e
            | _ => clean evs
            end).
Proof.
  destruct (String.eqb_spec dir "") as [->|Hd].
  { rewrite main_flags by auto. intros [= <- <-]. left. auto. }
  destruct (String.eqb_spec o "") as [->|Ho].
  { rewrite main_flags by auto. intros [= <- <-]. left. auto. }
  destruct (String.eqb_spec n "") as [->|Hn].
  { rewrite main_flags by auto. intros [= <- <-]. left. auto. }
  intros H. right. do 3 (split; [done|]). revert H. unfold main.
  apply String.eqb_neq in Hd, Ho, Hn. rewrite Hd, Ho, Hn. cbn [orb].
  unfold Printf, emit. unfold bind at 1. unfold bind at 1.
  set (w0 := mkWorld _ _ _).
  assert (walk_post dir o n w w0 (Returned None)) as Hbanner.
  { eexists [_]. split; [done|]. split; [by repeat constructor|]. split; [done|].
    solve_clean. }
  destruct (Walker.Walk fuel dir (visit o n) w0) as [st w1] eqn:EW.
  apply Walk_post in EW as (Hwalk & Hnd & Hna).
  pose proof (walk_post_trans _ _ _ _ _ _ _ Hbanner Hwalk) as Hall.
  destruct st as [[e|]|].
  - intros [= <- <-]. destruct Hall as (evs & Hl & Hok & Hfs & Hout).
    exists evs. repeat split; try done. exists e. split; [done|].
    unfold outcome in Hout. destruct e; try done; by exfalso.
  - unfold bind at 1. intros [= <- <-]. cbn [fs log].
    destruct Hall as (evs & Hl & Hok & Hfs & Hout).
    eexists (evs ++ [_]). rewrite Hl, <- app_assoc. split; [done|].
    split; [apply Forall_app_2; [done|by repeat constructor]|]. split; [done|].
    apply Forall_app_2; [done|]. solve_clean.
  - intros [= <- <-]. destruct Hall as (evs & Hl & Hok & Hfs & Hout). by exists evs.
Qed.

(** C7: with one of --dir, --old, --new missing or empty the program prints
    the usage text and ends with the fatal error, and that is all it does:
    the file system is as before and the log holds no call into the
    operating system -- no entry was visited, read, written or moved. *)
Theorem C7_missing_flag_is_fatal (fuel : nat) (projectDir oldName newName : string) (w : World) :
  projectDir = "" \/ oldName = "" \/ newName = "" ->
  main fuel projectDir oldName newName w
  = (Fatal "All flags --dir, --old, and --new are required.",
     mkWorld (fs w) (fault w) (log w ++ [Usage])).
Proof. apply main_flags. Qed.

Lemma C7_missing_flag_is_fatal_witness :
  ("proj" = "" \/ "" = "" \/ "com.new" = "")
  /\ main 10 "proj" "" "com.new" sample_world
     = (Fatal "All flags --dir, --old, and --new are required.",
        mkWorld sample_fs no_fault [Usage]).
Proof.
  split; [right; left; reflexivity|].
  apply (C7_missing_flag_is_fatal 10 "proj" "" "com.new" sample_world).
  right. left. reflexivity.
Defined.

(** C8: a call into the operating system that fails during a run -- the
    [Lstat] or directory read of the walk, or a read, write, directory
    creation or rename of a processor -- is the last thing the run does: no
    event follows it in the log, and the program ends with a fatal error
    whose message names the path and the cause of the failed call. *)
Theorem C8_first_error_aborts (fuel : nat) (projectDir oldName newName : string) (w : World) :
  let run := main fuel projectDir oldName newName w in
  exists evs, log run.2 = log w ++ evs
    /\ forall pre ev post,
         evs = pre ++ ev :: post -> is_failure ev ->
         post = []
         /\ exists sc q arg errno msg,
              ev = Call sc q arg (Some errno)
              /\ run.1 = Fatal msg
              /\ strings.Contains msg q = true
              /\ strings.Contains msg (Errno_Error errno) = true.
Proof.
  intros run. subst run.
  destruct (main fuel projectDir oldName newName w) as [ex w'] eqn:E.
  apply main_post in E as [(_ & -> & _ & Hl)|(_ & _ & _ & evs & Hl & _ & _ & Hout)].
  - exists [Usage]. split; [done|]. intros pre ev post Heq Hf. exfalso.
    destruct pre as [|? [|]]; simplify_eq/=. done.
  - exists evs. split; [done|]. intros pre ev post Heq Hf. cbn [fst].
    assert (clean evs -> False) as Hclean.
    { intros Hc. rewrite Heq in Hc. apply Forall_app in Hc as [_ Hc].
      by apply Forall_cons in Hc as [Hc _]. }
    destruct ex as [|msg|]; try done.
    destruct Hout as (e & -> & Hfail).
    destruct (failing_is_last _ _ _ _ _ Hfail Heq Hf)
      as (-> & sc & q & arg & errno & -> & Hq & He & _).
    split; [done|]. exists sc, q, arg, errno. eexists.
    repeat split; by apply Contains_app_r.
Qed.

Lemma C8_first_error_aborts_witness :
  last (log denied_main_run.2)
  = Some (Call SysRename "proj/src/com/old/Foo.java" "proj/src/com/new/Foo.java" (Some EACCES))
  /\ exists msg, denied_main_run.1 = Fatal msg
       /\ strings.Contains msg "proj/src/com/old/Foo.java" = true
       /\ strings.Contains msg "permission denied" = true.
Proof.
  split; [vm_compute; reflexivity|].
  destruct (C8_first_error_aborts 10 "proj" "com.old" "com.new"
              (mkWorld sample_fs rename_denied [])) as (evs & Hl & Hlast).
  fold denied_main_run in Hl, Hlast. cbn [log app] in Hl.
  destruct (Hlast (removelast (log denied_main_run.2))
              (Call SysRename "proj/src/com/old/Foo.java" "proj/src/com/new/Foo.java"
                 (Some EACCES)) [])
    as (_ & sc & q & arg & errno & msg & Hev & Hex & Hq & He).
  - rewrite <- Hl. vm_compute. reflexivity.
  - split; discriminate.
  - injection Hev as <- <- <- <-. exists msg. by repeat split.
Defined.


(** C9: when the old and the new name are equal, every replacement is the
    identity and the rewritten path is the path itself; a processor then
    only reads its file -- it writes nothing and renames nothing -- and a
    whole run leaves the file system as it was. *)
Theorem C9_same_name_changes_nothing
    (fuel : nat) (projectDir name filePath : string) (w : World) :
  (forall content, javaContent content name name = content
                   /\ buildContent content name name = content)
  /\ newFilePath filePath name name = filePath
  /\ (fs (processJavaFile filePath name name w).2 = fs w
      /\ exists oe, log (processJavaFile filePath name name w).2
                    = log w ++ [Stdout ("Processing Java file: " +:+ filePath);
                                Call SysReadFile filePath "" oe])
  /\ (fs (processBuildFile filePath name name w).2 = fs w
      /\ exists oe, log (processBuildFile filePath name name w).2
                    = log w ++ [Stdout ("Processing build file: " +:+ filePath);
                                Call SysReadFile filePath "" oe])
  /\ fs (main fuel projectDir name name w).2 = fs w.
Proof.
  split; [intros c; split; [apply javaContent_same|apply buildContent_same]|].
  split; [apply newFilePath_same|]. split; [|split].
  - destruct (processJavaFile filePath name name w) as [r w'] eqn:E.
    apply processJavaFile_run in E. cbn [snd].
    inversion E; subst; inline_lets;
      try (by (exfalso; first [match goal with H : javaContent _ _ _ <> _ |- _ =>
                                 apply H, javaContent_same end
                              | match goal with H : newFilePath _ _ _ <> _ |- _ =>
                                 apply H, newFilePath_same end])).
    + eauto.
    + match goal with H : fs w' = _ |- _ => rewrite H end.
      match goal with H : log w' = _ |- _ => rewrite H end.
      unfold java_write_fs, java_write_log.
      rewrite javaContent_same, String.eqb_refl, app_nil_r. eauto.
  - destruct (processBuildFile filePath name name w) as [r w'] eqn:E.
    apply processBuildFile_run in E. cbn [snd].
    inversion E; subst;
      try (by (exfalso; match goal with H : buildContent _ _ _ <> _ |- _ =>
                          apply H, buildContent_same end)); eauto.
  - destruct (main fuel projectDir name name w) as [ex w'] eqn:E.
    apply main_post in E as [(_ & _ & Hfs & _)|(_ & _ & _ & evs & _ & _ & Hfs & _)];
      cbn [snd]; auto.
Qed.

(** * More of the code *)

(** ** The package path *)
Section ByteReplace.

Variables c d : ascii.

Lemma replace_byte_None (s : string) :
  strings.Index s (String c "") = None -> replace_byte c d s = s.
Proof.
  induction s as [|a s IH]; [done|]. rewrite (Index_byte c). simpl.
  destruct (Ascii.eqb a c); [done|].
  destruct (strings.Index s (String c "")); [done|]. intros _. by rewrite IH.
Qed.

Lemma replace_byte_Some (s : string) (j : nat) :
  strings.Index s (String c "") = Some j ->
  replace_byte c d s = str_take j s +:+ String d (replace_byte c d (str_drop (j + 1) s)).
Proof.
  revert j. induction s as [|a s IH]; intros j; [done|].
  rewrite (Index_byte c). simpl replace_byte.
  destruct (Ascii.eqb a c).
  - by intros [= <-].
  - destruct (strings.Index s (String c "")) as [j'|]; [|done].
    intros [= <-]. simpl. rewrite str_app_cons. f_equal. by apply IH.
Qed.

Lemma replace_loop_byte (fuel : nat) :
  forall s i, len s <= fuel ->
    strings.replace_loop (strings.count_loop fuel s (String c "")) i s
      (String c "") (String d "")
    = replace_byte c d s.
Proof.
  induction fuel as [|f IH]; intros s i Hlen.
  - by rewrite (len_0 s) by lia.
  - simpl. destruct (strings.Index s (String c "")) as [j|] eqn:E.
    + simpl. rewrite E, (replace_byte_Some _ _ E). f_equal.
      rewrite str_app_cons. f_equal. change ("" +:+ ?x) with x.
      apply IH. pose proof (Index_bound _ _ _ E) as Hb. rewrite len_str_drop.
      simpl in *. lia.
    + simpl. by rewrite replace_byte_None.
Qed.

Lemma ReplaceAll_byte (s : string) :
  c <> d -> strings.ReplaceAll s (String c "") (String d "") = replace_byte c d s.
Proof.
  intros Hne. unfold strings.ReplaceAll, strings.Replace.
  assert (String.eqb (String c "") (String d "") = false) as ->.
  { apply String.eqb_neq. congruence. }
  simpl. unfold strings.Count. simpl.
  pose proof (replace_loop_byte (len s) s 0 (le_n _)) as H.
  destruct (strings.count_loop (len s) s (String c "")) eqn:E; simpl; [|done].
  exact H.
Qed.

Lemma len_replace_byte (s : string) : len (replace_byte c d s) = len s.
Proof. induction s as [|a s IH]; simpl; congruence. Qed.

Lemma Index_replace_byte (s : string) :
  c <> d -> strings.Index (replace_byte c d s) (String c "") = None.
Proof.
  intros Hne. induction s as [|a s IH]; [done|]. simpl replace_byte.
  rewrite (Index_byte c), IH.
  destruct (Ascii.eqb_spec a c) as [->|Hac].
  - destruct (Ascii.eqb_spec d c); [congruence|done].
  - destruct (Ascii.eqb_spec a c); [congruence|done].
Qed.

End ByteReplace.

(** X1: the package path of a name (main.go, lines 71-72) is the name with
    every dot turned into the path separator, byte by byte: it has the
    length of the name, it holds no dot, and a name without a dot is its
    own package path. *)
Theorem packagePath_maps_dots (name : string) :
  packagePath name = replace_byte "." "/" name
  /\ len (packagePath name) = len name
  /\ strings.Contains (packagePath name) "." = false
  /\ (strings.Contains name "." = false <-> packagePath name = name).
Proof.
  assert (packagePath name = replace_byte "." "/" name) as E.
  { unfold packagePath, filepath.Separator. by apply ReplaceAll_byte. }
  rewrite E. split; [done|]. split; [apply len_replace_byte|].
  assert (strings.Contains (replace_byte "." "/" name) "." = false) as Hno.
  { unfold strings.Contains. by rewrite Index_replace_byte. }
  split; [done|]. split.
  - unfold strings.Contains. destruct (strings.Index name ".") eqn:Ei; [done|].
    intros _. by apply replace_byte_None.
  - intros Heq. by rewrite Heq in Hno.
Qed.

(** ** Build files: names at the edge *)
Section EmptyPattern.

Lemma DecodeRuneInString_size_pos (a : ascii) (s : string) :
  1 <= utf8.DecodeRuneInString_size (String a s).
Proof. unfold utf8.DecodeRuneInString_size. repeat case_match; lia. Qed.

Lemma len_rune_rest (a : ascii) (s : string) :
  len (str_drop (utf8.DecodeRuneInString_size (String a s)) (String a s)) <= len s.
Proof.
  rewrite len_str_drop. pose proof (DecodeRuneInString_size_pos a s).
  change (len (String a s)) with (S (len s)). lia.
Qed.

Lemma replace_loop_empty (x : string) (fuel : nat) :
  forall s i, 0 < i -> len s <= fuel ->
    strings.replace_loop (utf8.rune_count_loop fuel s) i s "" x
    = followed_by x (strings.explode fuel s).
Proof.
  induction fuel as [|f IH]; intros s i Hi Hlen.
  - by rewrite (len_0 s) by lia.
  - destruct s as [|a s]; [done|].
    cbn [utf8.rune_count_loop strings.explode followed_by strings.replace_loop].
    cbn [len Nat.eqb]. cbv zeta.
    assert ((0 <? i) = true) as -> by (apply Nat.ltb_lt; lia).
    rewrite Nat.add_0_r. do 2 f_equal.
    apply IH; [lia|]. pose proof (len_rune_rest a s). simpl in Hlen. lia.
Qed.

Lemma ReplaceAll_empty (s x : string) :
  x <> "" ->
  strings.ReplaceAll s "" x = x +:+ followed_by x (strings.explode (len s) s).
Proof.
  intros Hx. unfold strings.ReplaceAll, strings.Replace.
  assert (String.eqb "" x = false) as -> by (by destruct x).
  unfold strings.Count, utf8.RuneCountInString. simpl Nat.eqb. cbv iota. cbn [orb].
  change ((-1 =? 0)%Z) with false. cbv iota zeta.
  rewrite Nat.add_1_r. simpl Nat.eqb. cbv iota.
  change ((-1 <? 0)%Z) with true. cbn [orb]. cbv iota.
  cbn [strings.replace_loop len Nat.eqb]. cbv zeta. cbn [Nat.ltb Nat.leb]. cbv iota.
  assert (str_take 0 s = "") as -> by (by destruct s).
  assert (str_drop (0 + 0) s = s) as -> by (by destruct s).
  change ("" +:+ ?y) with y. f_equal.
  apply replace_loop_empty; lia.
Qed.

Lemma len_followed_by_explode (x : string) (fuel : nat) :
  forall s, len s <= fuel ->
    len (followed_by x (strings.explode fuel s))
    = len s + utf8.rune_count_loop fuel s * len x.
Proof.
  induction fuel as [|f IH]; intros s Hlen.
  - by rewrite (len_0 s) by lia.
  - destruct s as [|a s]; [done|].
    cbn [utf8.rune_count_loop strings.explode followed_by]. cbv zeta.
    set (w := utf8.DecodeRuneInString_size (String a s)).
    rewrite !len_app, IH.
    2: { pose proof (len_rune_rest a s). simpl in Hlen. fold w in H. lia. }
    pose proof (f_equal len (str_take_drop w (String a s))) as Hsplit.
    rewrite len_app in Hsplit. lia.
Qed.

Lemma LastIndexByte_snoc (g : string) (c : ascii) :
  strings.LastIndexByte (g +:+ String c "") c = Some (len g).
Proof.
  induction g as [|a g IH].
  - simpl. by rewrite Ascii.eqb_refl.
  - rewrite str_app_cons. simpl. by rewrite IH.
Qed.

Lemma LastIndexByte_None (s : string) (c : ascii) :
  strings.Index s (String c "") = None -> strings.LastIndexByte s c = None.
Proof.
  induction s as [|a s IH]; [done|]. rewrite (Index_byte c). simpl.
  destruct (Ascii.eqb a c); [done|].
  destruct (strings.Index s (String c "")); [done|]. intros _. by rewrite IH.
Qed.

End EmptyPattern.

(** X2: an old name that ends with a dot has an empty artifact, and
    replacing the empty string (main.go, lines 144-146) inserts the new
    artifact before every character of the build file and after its last
    one: the file grows by the new artifact once per character and once
    more, before the group is replaced. *)
Theorem buildContent_empty_artifact (content group newName : string) :
  trailing_segment newName <> "" ->
  let c1 := strings.ReplaceAll content (group +:+ ".") newName in
  let c2 := trailing_segment newName
            +:+ followed_by (trailing_segment newName) (strings.explode (len c1) c1) in
  buildContent content (group +:+ ".") newName
  = (if negb (String.eqb group "") && negb (String.eqb (dotted_prefix newName) "")
     then strings.ReplaceAll c2 group (dotted_prefix newName) else c2)
  /\ len c2 = len c1 + (utf8.RuneCountInString c1 + 1) * len (trailing_segment newName).
Proof.
  intros Hart c1 c2.
  assert (trailing_segment (group +:+ ".") = "") as Ht.
  { unfold trailing_segment. rewrite LastIndexByte_snoc.
    change (S (len group)) with (1 + len group).
    rewrite Nat.add_comm, str_drop_add, str_drop_app. done. }
  assert (dotted_prefix (group +:+ ".") = group) as Hd.
  { unfold dotted_prefix. rewrite LastIndexByte_snoc. apply str_take_app. }
  split.
  - rewrite buildContent_spec. unfold spec_buildContent. rewrite Ht, Hd.
    fold c1. by rewrite (ReplaceAll_empty c1 _ Hart).
  - unfold c2. rewrite len_app, len_followed_by_explode by done.
    unfold utf8.RuneCountInString. lia.
Qed.

Lemma buildContent_empty_artifact_witness :
  trailing_segment "com.new" <> ""
  /\ buildContent "<a>x</a>" "com." "com.new"
     = "new<newanew>newxnew<new/newanew>new".
Proof.
  split; [done|].
  destruct (buildContent_empty_artifact "<a>x</a>" "com" "com.new") as [H _]; [done|].
  refine (eq_trans H _). vm_compute. reflexivity.
Defined.

(** X3: an old name without a dot is its own artifact and has no group, so
    a build file goes through two replacements of the old name only: by the
    new name, then -- in the result, where the new name may have brought the
    old one back -- by what follows the last dot of the new name. *)
Theorem buildContent_single_segment (content oldName newName : string) :
  strings.Contains oldName "." = false ->
  buildContent content oldName newName
  = strings.ReplaceAll (strings.ReplaceAll content oldName newName)
      oldName (trailing_segment newName).
Proof.
  unfold strings.Contains. destruct (strings.Index oldName ".") eqn:E; [done|]. intros _.
  assert (trailing_segment oldName = oldName) as Ht.
  { unfold trailing_segment. by rewrite (LastIndexByte_None _ _ E). }
  assert (dotted_prefix oldName = "") as Hd.
  { unfold dotted_prefix. by rewrite (LastIndexByte_None _ _ E). }
  rewrite buildContent_spec. unfold spec_buildContent. by rewrite Ht, Hd.
Qed.

Lemma buildContent_single_segment_witness :
  strings.Contains "app" "." = false
  /\ buildContent "<name>app</name>" "app" "org.application"
     = "<name>org.applicationlication</name>".
Proof.
  split; [done|].
  rewrite (buildContent_single_segment "<name>app</name>" "app" "org.application"
             eq_refl).
  vm_compute. reflexivity.
Defined.

(** ** What a processor leaves alone *)
Section Frames.







End Frames.






Lemma last_app_Some {A} (l l' : list A) (x : A) :
  last l' = Some x -> last (l ++ l') = Some x.
Proof. intros H. by rewrite last_app, H. Qed.

(** X6: a run of [processJavaFile] that returns an error has not removed
    the file.  The log ends with the call that failed.  After a failed read
    the file system is as it was; after a failed write the file is still an
    entry at its path (what it holds then is up to the failed write); after
    a failed [os.MkdirAll] or [os.Rename] the file is still at its path,
    holding the rewritten content. *)
Theorem processJavaFile_error_keeps_file
    (filePath oldName newName content : string) (w w' : World) (e : error) :
  os.lookup_node (fs w) (filepath.Clean filePath) = Some (File content) ->
  processJavaFile filePath oldName newName w = (Some e, w') ->
  exists sc q arg errno,
    last (log w') = Some (Call sc q arg (Some errno))
    /\ match sc with
       | SysReadFile => fs w' = fs w
       | SysWriteFile =>
           exists c', os.lookup_node (fs w') (filepath.Clean filePath) = Some (File c')
       | SysMkdirAll | SysRename =>
           os.lookup_node (fs w') (filepath.Clean filePath)
           = Some (File (javaContent content oldName newName))
       | _ => False
       end.
Proof.
  intros Hlk E. apply processJavaFile_run in E.
  inversion E; subst; inline_lets; same_content;
    match goal with H : log w' = _ |- _ => rewrite H end;
    do 4 eexists; (split; [repeat apply last_app_Some; reflexivity|]);
    cbv beta iota; try done.
  - exists content. congruence.
  - match goal with H : fs w' = _ |- _ => rewrite H end. by apply java_write_fs_lookup.
  - by eapply java_prepared_lookup.
Qed.

Lemma processJavaFile_error_keeps_file_witness :
  os.lookup_node sample_fs (filepath.Clean "proj/src/com/old/Foo.java")
  = Some (File "package com.old.foo;")
  /\ os.lookup_node
       (fs (processJavaFile "proj/src/com/old/Foo.java" "com.old" "com.new"
              (mkWorld sample_fs rename_denied [])).2)
       "proj/src/com/old/Foo.java"
     = Some (File "package com.new.foo;").
Proof.
  split; [vm_compute; reflexivity|].
  destruct (processJavaFile "proj/src/com/old/Foo.java" "com.old" "com.new"
              (mkWorld sample_fs rename_denied [])) as [r w'] eqn:E.
  assert (r = Some (Errorf_w
                      ("failed to rename file from proj/src/com/old/Foo.java"
                       +:+ " to proj/src/com/new/Foo.java")
                      (LinkError "rename" "proj/src/com/old/Foo.java"
                         "proj/src/com/new/Foo.java" EACCES))) as ->.
  { pose proof (f_equal fst E) as E1. cbn [fst] in E1. rewrite <- E1.
    vm_compute. reflexivity. }
  assert (last (log w')
          = Some (Call SysRename "proj/src/com/old/Foo.java" "proj/src/com/new/Foo.java"
                    (Some EACCES))) as Hlast.
  { pose proof (f_equal snd E) as E2. cbn [snd] in E2. rewrite <- E2.
    vm_compute. reflexivity. }
  assert (os.lookup_node (fs (mkWorld sample_fs rename_denied []))
            (filepath.Clean "proj/src/com/old/Foo.java")
          = Some (File "package com.old.foo;")) as Hlk by (vm_compute; reflexivity).
  destruct (processJavaFile_error_keeps_file _ _ _ _ _ _ _ Hlk E)
    as (sc & q & arg & errno & Hl & H).
  rewrite Hlast in Hl. injection Hl as <- <- <- <-. exact H.
Defined.

(** X7: [processJavaFile] calls [os.MkdirAll] exactly when its [os.Stat]
    on the directory of the new path reported that nothing is there
    (main.go, lines 103-109), and then on that directory.  When [os.Stat]
    fails otherwise, the failure is ignored and no directory is made. *)
Theorem processJavaFile_mkdir_iff_missing (filePath oldName newName : string) (w : World) :
  let newDir := filepath.Dir (newFilePath filePath oldName newName) in
  exists evs,
    log (processJavaFile filePath oldName newName w).2 = log w ++ evs
    /\ ((exists q arg oe, In (Call SysMkdirAll q arg oe) evs)
        <-> In (Call SysStat newDir "" (Some ENOENT)) evs)
    /\ (forall q arg oe, In (Call SysMkdirAll q arg oe) evs -> q = newDir)
    /\ (forall q arg oe, In (Call SysStat q arg oe) evs -> q = newDir).
Proof.
  intros newDir.
  destruct (processJavaFile filePath oldName newName w) as [r w'] eqn:E.
  apply processJavaFile_run in E. cbn [snd].
  inversion E; subst; inline_lets; try split_prepared;
    (eexists; split; [eassumption|]);
    unfold java_write_log;
    try match goal with |- context [String.eqb ?a ?b] => destruct (String.eqb a b) end;
    simpl;
    (split; [split; [intros (q & arg & oe' & Hin)|intros Hin]|split; intros q arg oe' Hin]);
    naive_solver.
Qed.

(** ** Invariants of the walk *)

(** A relation between the worlds before and after that holds of every step
    of the walk holds of the whole walk, whatever the fuel. *)
Section WalkInvariant.

Variable fn : WalkFunc.
Variable I : World -> World -> Prop.

Hypothesis I_refl : forall w, I w w.
Hypothesis I_trans : forall w1 w2 w3, I w1 w2 -> I w2 w3 -> I w1 w3.
Hypothesis I_Lstat : forall name w, I w (os.Lstat name w).2.
Hypothesis I_readDirNames : forall name w, I w (os.readDirNames name w).2.
Hypothesis I_fn : forall path info err w, I w (fn path info err w).2.

Lemma walk_names_inv (rec : string -> FileInfo -> IO status) (path : string) :
  (forall name info w, I w (rec name info w).2) ->
  forall names w, I w (Walker.walk_names rec fn path names w).2.
Proof.
  intros Hrec names. induction names as [|name rest IH]; intros w; [apply I_refl|].
  cbn [Walker.walk_names]. unfold bind at 1.
  pose proof (I_Lstat (filepath.Join path name) w) as HL.
  destruct (os.Lstat _ w) as [r w1] eqn:EL. cbn [snd] in HL.
  pose proof (Lstat_inv _ _ _ _ EL) as (_ & _ & [(info & -> & _)|(errno & -> & _)]).
  - unfold bind at 1. pose proof (Hrec (filepath.Join path name) info w1) as HR.
    destruct (rec _ info w1) as [st w2] eqn:ER. cbn [snd] in HR.
    assert (I w w2) as H2 by eauto.
    destruct st as [[e|]|]; [|by eauto|done].
    destruct (negb (IsDir info) || negb (is_SkipDir (Some e))); [done|by eauto].
  - unfold bind at 1.
    pose proof (I_fn (filepath.Join path name) None
                  (Some (PathError "lstat" (filepath.Join path name) errno)) w1) as HF.
    destruct (fn _ None _ w1) as [r w2]. cbn [snd] in HF.
    assert (I w w2) as H2 by eauto.
    destruct r as [e|]; [|by eauto].
    destruct (negb (is_SkipDir (Some e))); [done|by eauto].
Qed.

Lemma walk_inv (fuel : nat) :
  forall path info w, I w (Walker.walk fuel fn path info w).2.
Proof.
  induction fuel as [|f IH]; intros path info w; [apply I_refl|].
  cbn [Walker.walk]. destruct (IsDir info) eqn:Ed; cbn [negb].
  - unfold bind at 1.
    pose proof (I_readDirNames path w) as HR.
    destruct (os.readDirNames path w) as [[names oe] w1]. cbn [snd] in HR.
    unfold bind at 1.
    pose proof (I_fn path (Some info) oe w1) as HF.
    destruct (fn path (Some info) oe w1) as [r w2]. cbn [snd] in HF.
    assert (I w w2) as H2 by eauto.
    destruct oe as [e|]; [done|]. destruct r as [e|]; [done|].
    eapply I_trans; [exact H2|]. apply walk_names_inv. exact IH.
  - unfold bind at 1. pose proof (I_fn path (Some info) None w) as HF.
    by destruct (fn path (Some info) None w).
Qed.

Lemma Walk_inv (fuel : nat) (root : string) (w : World) :
  I w (Walker.Walk fuel root fn w).2.
Proof.
  unfold Walker.Walk. unfold bind at 1.
  pose proof (I_Lstat root w) as HL.
  destruct (os.Lstat root w) as [r w1] eqn:EL. cbn [snd] in HL.
  pose proof (Lstat_inv _ _ _ _ EL) as (_ & _ & [(info & -> & _)|(errno & -> & _)]).
  - unfold bind at 1.
    pose proof (walk_inv fuel root info w1) as HW.
    destruct (Walker.walk fuel fn root info w1) as [st w2]. cbn [snd] in HW.
    assert (I w w2) as H2 by eauto.
    destruct st as [err|]; [|done]. by destruct (is_SkipDir err || is_SkipAll err).
  - unfold bind at 1, bind at 1.
    pose proof (I_fn root None (Some (PathError "lstat" root errno)) w1) as HF.
    destruct (fn root None _ w1) as [r w2]. cbn [snd] in HF.
    assert (I w w2) as H2 by eauto. unfold ret at 1.
    by destruct (is_SkipDir r || is_SkipAll r).
Qed.

End WalkInvariant.

(** The same for the whole program: a relation that holds of every call of
    [os.Lstat] and [readDirNames], of every line printed and of every run
    of a processor holds of [main]. *)
Section MainInvariant.

Variables o n : string.
Variable I : World -> World -> Prop.

Hypothesis I_refl : forall w, I w w.
Hypothesis I_trans : forall w1 w2 w3, I w1 w2 -> I w2 w3 -> I w1 w3.
Hypothesis I_Lstat : forall name w, I w (os.Lstat name w).2.
Hypothesis I_readDirNames : forall name w, I w (os.readDirNames name w).2.
Hypothesis I_Usage : forall w, I w (emit Usage w).2.
Hypothesis I_Printf : forall line w, I w (Printf line w).2.
Hypothesis I_java : forall p w, I w (processJavaFile p o n w).2.
Hypothesis I_build : forall p w, I w (processBuildFile p o n w).2.

Lemma visit_inv (path : string) (info : option FileInfo) (err : option error) (w : World) :
  I w (visit o n path info err w).2.
Proof.
  unfold visit. destruct err as [e|]; [apply I_refl|].
  destruct info as [info|]; [|apply I_refl].
  destruct (IsDir info); cbn [andb negb].
  - destruct (_ || _); apply I_refl.
  - destruct (strings.HasSuffix (Name info) ".java"); [apply I_java|].
    destruct (_ || _); [apply I_build|apply I_refl].
Qed.

Lemma main_inv (fuel : nat) (dir : string) (w : World) :
  I w (main fuel dir o n w).2.
Proof.
  unfold main. destruct (_ || _).
  - unfold bind, ret. pose proof (I_Usage w) as H. by destruct (emit Usage w).
  - unfold bind at 1. set (banner := _ +:+ _).
    pose proof (I_Printf banner w) as HB.
    destruct (Printf banner w) as [[] w0]. cbn [snd] in HB. unfold bind at 1.
    assert (I w0 (Walker.Walk fuel dir (visit o n) w0).2) as HW.
    { apply Walk_inv; try done. apply visit_inv. }
    destruct (Walker.Walk fuel dir (visit o n) w0) as [st w1]. cbn [snd] in HW.
    assert (I w w1) as H1 by eauto.
    destruct st as [[e|]|]; [done| |done].
    unfold bind, ret. set (line := "Renaming complete. Please verify the changes and rebuild your Java project.").
    pose proof (I_Printf line w1) as HP. destruct (Printf line w1) as [[] w2].
    cbn [snd] in *. eauto.
Qed.

End MainInvariant.

(** ** Directories stay *)
Section DirsKept.

Lemma lookup_node_insert_ne (m : gmap string node) (k k' : string) (v : node) :
  k' <> k -> os.lookup_node (<[k := v]> m) k' = os.lookup_node m k'.
Proof. intros H. unfold os.lookup_node. by rewrite lookup_insert_ne. Qed.

Lemma lookup_node_delete_ne (m : gmap string node) (k k' : string) :
  k' <> k -> os.lookup_node (delete k m) k' = os.lookup_node m k'.
Proof. intros H. unfold os.lookup_node. by rewrite lookup_delete_ne. Qed.

Lemma dirs_kept_refl (m : gmap string node) : dirs_kept m m.
Proof. by intros k. Qed.

Lemma dirs_kept_trans (m1 m2 m3 : gmap string node) :
  dirs_kept m1 m2 -> dirs_kept m2 m3 -> dirs_kept m1 m3.
Proof. intros H12 H23 k Hk. by apply H23, H12. Qed.

Lemma dirs_kept_write (m : gmap string node) (k c c' : string) :
  os.lookup_node m k = Some (File c) -> dirs_kept m (<[k := File c']> m).
Proof.
  intros Hk k' Hk'. rewrite lookup_node_insert_ne; [done|]. intros ->. congruence.
Qed.

Lemma java_write_fs_dirs_kept (p c o n : string) (m : gmap string node) :
  os.lookup_node m (filepath.Clean p) = Some (File c) ->
  dirs_kept m (java_write_fs p c o n m).
Proof.
  intros H. unfold java_write_fs. case_match; [apply dirs_kept_refl|].
  by eapply dirs_kept_write.
Qed.

Lemma java_prepared_dirs_kept (p c o n : string) (m m2 : gmap string node)
    (klog : list event) :
  os.lookup_node m (filepath.Clean p) = Some (File c) ->
  java_prepared p c o n m m2 klog -> dirs_kept m m2.
Proof.
  intros H [(oe & _ & _ & ->)|(_ & _ & Hmk)].
  - by apply java_write_fs_dirs_kept.
  - eapply dirs_kept_trans; [by apply java_write_fs_dirs_kept|].
    intros k Hk. by eapply mkdirAll_mono.
Qed.

Lemma processJavaFile_dirs_kept (p o n : string) (w : World) :
  dirs_kept (fs w) (fs (processJavaFile p o n w).2).
Proof.
  destruct (processJavaFile p o n w) as [r w'] eqn:E.
  apply processJavaFile_run in E. cbn [snd].
  inversion E; subst; inline_lets;
    repeat match goal with H : fs w' = fs w |- _ => rewrite H; clear H end;
    try apply dirs_kept_refl.
  - match goal with H : fs w' = _ |- _ => rewrite H end.
    by apply java_write_fs_dirs_kept.
  - match goal with H : fs w' = _ |- _ => rewrite H end.
    by apply java_write_fs_dirs_kept.
  - by eapply java_prepared_dirs_kept.
  - match goal with H : fs w' = _ |- _ => rewrite H end.
    intros k Hk.
    assert (os.lookup_node m2 k = Some Directory) as Hk2
      by (by eapply java_prepared_dirs_kept).
    rewrite lookup_node_insert_ne by (intros ->; congruence).
    rewrite lookup_node_delete_ne; [done|]. intros ->.
    match goal with
    | Hp : java_prepared _ _ _ _ _ _ _, Hl : os.lookup_node (fs w) _ = Some (File _) |- _ =>
        pose proof (java_prepared_lookup _ _ _ _ _ _ _ Hl Hp)
    end.
    congruence.
Qed.

Lemma processBuildFile_dirs_kept (p o n : string) (w : World) :
  dirs_kept (fs w) (fs (processBuildFile p o n w).2).
Proof.
  destruct (processBuildFile p o n w) as [r w'] eqn:E.
  apply processBuildFile_run in E. cbn [snd].
  inversion E; subst;
    match goal with H : fs w' = _ |- _ => rewrite H end;
    try apply dirs_kept_refl.
  by eapply dirs_kept_write.
Qed.

Lemma main_dirs_kept (fuel : nat) (dir o n : string) (w : World) :
  dirs_kept (fs w) (fs (main fuel dir o n w).2).
Proof.
  apply (main_inv o n (fun w w' => dirs_kept (fs w) (fs w'))).
  - intros w0. apply dirs_kept_refl.
  - intros w1 w2 w3. apply dirs_kept_trans.
  - intros name w0. cbv beta. destruct (os.Lstat name w0) as [r w1] eqn:E. cbn [snd].
    apply Lstat_inv in E as (_ & Hfs & _). rewrite Hfs. apply dirs_kept_refl.
  - intros name w0. cbv beta.
    destruct (os.readDirNames name w0) as [[names oe] w1] eqn:E. cbn [snd].
    apply readDirNames_inv in E as (_ & Hfs & _). rewrite Hfs. apply dirs_kept_refl.
  - intros w0. apply dirs_kept_refl.
  - intros line w0. apply dirs_kept_refl.
  - intros p w0. apply processJavaFile_dirs_kept.
  - intros p w0. apply processBuildFile_dirs_kept.
Qed.

End DirsKept.

(** X8: the program never removes a directory and never puts a file in the
    place of one: whatever is a directory before a run -- of a processor or
    of the whole program, with any fuel and any failures -- is a directory
    after it.  In particular the directories of the old package stay where
    they were when their files have moved. *)
Theorem directories_stay (fuel : nat) (projectDir oldName newName k : string) (w : World) :
  os.lookup_node (fs w) k = Some Directory ->
  os.lookup_node (fs (main fuel projectDir oldName newName w).2) k = Some Directory
  /\ (forall filePath,
        os.lookup_node (fs (processJavaFile filePath oldName newName w).2) k
        = Some Directory
        /\ os.lookup_node (fs (processBuildFile filePath oldName newName w).2) k
           = Some Directory).
Proof.
  intros Hk. split; [by apply main_dirs_kept|].
  intros p. split; [by apply processJavaFile_dirs_kept|by apply processBuildFile_dirs_kept].
Qed.

Lemma directories_stay_witness :
  os.lookup_node (fs sample_world) "proj/src/com/old" = Some Directory
  /\ os.lookup_node (fs sample_main_run.2) "proj/src/com/old" = Some Directory
  /\ os.children (fs sample_main_run.2) "proj/src/com/old" = ["Bar.txt"].
Proof.
  split; [vm_compute; reflexivity|]. split.
  - destruct (directories_stay 10 "proj" "com.old" "com.new" "proj/src/com/old"
                sample_world) as [H _]; [vm_compute; reflexivity|].
    exact H.
  - vm_compute. reflexivity.
Defined.

(** ** Reading comes first *)
Section ReadFirst.

Lemma read_first_nil : read_first [].
Proof. intros i. split; intros ? ? ? H; by rewrite lookup_nil in H. Qed.

Lemma read_first_app (a b : list event) :
  read_first a -> read_first b -> read_first (a ++ b).
Proof.
  intros Ha Hb i. destruct (decide (i < length a)) as [Hi|Hi].
  - rewrite lookup_app_l by done. destruct (Ha i) as [Hw Hr]. split.
    + intros q d oe H. destruct (Hw _ _ _ H) as (j & -> & Hj).
      exists j. split; [done|]. rewrite lookup_app_l by lia. done.
    + intros q t oe H. destruct (Hr _ _ _ H) as (j & Hlt & Hj).
      exists j. split; [done|]. rewrite lookup_app_l by lia. done.
  - rewrite lookup_app_r by lia. destruct (Hb (i - length a)) as [Hw Hr]. split.
    + intros q d oe H. destruct (Hw _ _ _ H) as (j & Hij & Hj).
      exists (length a + j). split; [lia|]. rewrite lookup_app_r by lia.
      by replace (length a + j - length a) with j by lia.
    + intros q t oe H. destruct (Hr _ _ _ H) as (j & Hlt & Hj).
      exists (length a + j). split; [lia|]. rewrite lookup_app_r by lia.
      by replace (length a + j - length a) with j by lia.
Qed.

(** A step that makes no write and no rename. *)
Lemma read_first_other (ev : event) :
  match ev with
  | Call SysWriteFile _ _ _ | Call SysRename _ _ _ => False
  | _ => True
  end -> read_first [ev].
Proof.
  intros Hev i. split; intros ? ? ? H; destruct i as [|i]; simplify_eq/=; done.
Qed.

(** The events of a list given in full, one by one. *)
Ltac read_first_at :=
  simplify_eq/=;
  try first [ by (eexists; split; [reflexivity|reflexivity])
            | by (exists 1; split; [lia|reflexivity]) ].

Ltac read_first_cases :=
  let i := fresh "i" in
  let H := fresh "H" in
  intros i; split; intros ? ? ? H;
  do 9 (destruct i as [|i]; [read_first_at|]); simplify_eq/=.

Lemma java_run_read_first (p o n : string) (w w' : World) (r : option error) :
  java_run p o n w r w' -> exists evs, log w' = log w ++ evs /\ read_first evs.
Proof.
  intros H. inversion H; subst; inline_lets; try split_prepared;
    (eexists; split; [eassumption|]);
    unfold java_write_log;
    try match goal with |- context [String.eqb ?a ?b] => destruct (String.eqb a b) end;
    cbn [app]; read_first_cases.
Qed.

Lemma build_run_read_first (p o n : string) (w w' : World) (r : option error) :
  build_run p o n w r w' -> exists evs, log w' = log w ++ evs /\ read_first evs.
Proof.
  intros H. inversion H; subst;
    (eexists; split; [eassumption|]); read_first_cases.
Qed.

Lemma main_read_first (fuel : nat) (dir o n : string) (w : World) :
  exists evs, log (main fuel dir o n w).2 = log w ++ evs /\ read_first evs.
Proof.
  apply (main_inv o n
           (fun w w' => exists evs, log w' = log w ++ evs /\ read_first evs)).
  - intros w0. exists []. split; [by rewrite app_nil_r|apply read_first_nil].
  - intros w1 w2 w3 (a & Ha & Hra) (b & Hb & Hrb). exists (a ++ b).
    split; [by rewrite Hb, Ha, app_assoc|by apply read_first_app].
  - intros name w0. destruct (os.Lstat name w0) as [r w1] eqn:E. cbn [snd].
    apply Lstat_inv in E as (_ & _ & [(? & _ & _ & Hl)|(? & _ & Hl)]);
      (eexists; split; [exact Hl|by apply read_first_other]).
  - intros name w0. destruct (os.readDirNames name w0) as [[names oe] w1] eqn:E.
    cbn [snd]. apply readDirNames_inv in E as (_ & _ & H). destruct oe.
    + destruct H as (? & _ & Hl). eexists; split; [exact Hl|by apply read_first_other].
    + destruct H as [_ Hl]. eexists; split; [exact Hl|by apply read_first_other].
  - intros w0. exists [Usage]. split; [done|by apply read_first_other].
  - intros line w0. exists [Stdout line]. split; [done|by apply read_first_other].
  - intros p w0. destruct (processJavaFile p o n w0) as [r w1] eqn:E. cbn [snd].
    by apply processJavaFile_run, java_run_read_first in E.
  - intros p w0. destruct (processBuildFile p o n w0) as [r w1] eqn:E. cbn [snd].
    by apply processBuildFile_run, build_run_read_first in E.
Qed.

End ReadFirst.

(** X9: the program writes and moves only files it has read.  In the log of
    any run -- for every tree, names, fuel and failures -- each
    [os.WriteFile] follows at once the successful [os.ReadFile] of the same
    file, and each [os.Rename] of a file comes after the successful read of
    that file. *)
Theorem writes_and_moves_follow_reads
    (fuel : nat) (projectDir oldName newName : string) (w : World) :
  exists evs,
    log (main fuel projectDir oldName newName w).2 = log w ++ evs
    /\ forall i,
         (forall q data oe, evs !! i = Some (Call SysWriteFile q data oe) ->
            exists j, i = S j /\ evs !! j = Some (Call SysReadFile q "" None))
         /\ (forall q target oe, evs !! i = Some (Call SysRename q target oe) ->
             exists j, j < i /\ evs !! j = Some (Call SysReadFile q "" None)).
Proof. apply main_read_first. Qed.

(** ** How the program ends *)
Section Endings.

Lemma main_Exit0_log (fuel : nat) (dir o n : string) (w w' : World) :
  main fuel dir o n w = (Exit0, w') ->
  exists evs,
    log w' = log w ++ evs
              ++ [Stdout "Renaming complete. Please verify the changes and rebuild your Java project."].
Proof.
  unfold main. destruct (_ || _); [by unfold bind, ret, emit|].
  unfold bind at 1. unfold Printf at 1, emit at 1. unfold bind at 1.
  set (w0 := mkWorld _ _ _).
  destruct (Walker.Walk fuel dir (visit o n) w0) as [st w1] eqn:EW.
  apply Walk_post in EW as ((evs & Hl & _) & _). cbn [log] in Hl.
  destruct st as [[e|]|]; [done| |done].
  unfold bind, ret, Printf, emit. intros [= <-]. cbn [log]. rewrite Hl.
  subst w0. cbn [log]. eexists (_ :: evs). by rewrite <- !app_assoc.
Qed.

Lemma failing_last (evs : list event) (e : error) :
  failing evs e ->
  exists sc q arg errno,
    last evs = Some (Call sc q arg (Some errno)) /\ sc <> SysStat /\ clean (removelast evs).
Proof. intros (sc & q & arg & errno & Hl & Hc & Hsc & _). eauto 10. Qed.

End Endings.

(** X10: the three ways in which a run ends.  It ends with exit code 0 only
    when all three flags were given and no call into the operating system
    failed (the probing [os.Stat] apart), and then the completion line is
    the last thing printed.  It ends fatally only for a missing flag, or
    with the walking error right after a failed call, which is then the
    last event of the run and the only failed one. *)
Theorem main_exit_cases (fuel : nat) (projectDir oldName newName : string) (w : World) :
  exists evs,
    log (main fuel projectDir oldName newName w).2 = log w ++ evs
    /\ match (main fuel projectDir oldName newName w).1 with
       | Exit0 =>
           (projectDir <> "" /\ oldName <> "" /\ newName <> "")
           /\ clean evs
           /\ last evs = Some (Stdout "Renaming complete. Please verify the changes and rebuild your Java project.")
       | Fatal msg =>
           ((projectDir = "" \/ oldName = "" \/ newName = "")
            /\ evs = [Usage]
            /\ msg = "All flags --dir, --old, and --new are required.")
           \/ ((projectDir <> "" /\ oldName <> "" /\ newName <> "")
               /\ strings.HasPrefix msg "Error walking the directory: " = true
               /\ exists sc q arg errno,
                    last evs = Some (Call sc q arg (Some errno))
                    /\ sc <> SysStat /\ clean (removelast evs))
       | Unfinished =>
           (projectDir <> "" /\ oldName <> "" /\ newName <> "") /\ clean evs
       end.
Proof.
  destruct (main fuel projectDir oldName newName w) as [ex w'] eqn:E. cbn [fst snd].
  pose proof (main_post _ _ _ _ _ _ _ E)
    as [(Hflag & -> & _ & Hl)|(Hd & Ho & Hn & evs & Hl & _ & _ & Hout)].
  - exists [Usage]. split; [done|]. left. by repeat split.
  - exists evs. split; [done|]. destruct ex as [|msg|].
    + split; [done|]. split; [done|].
      apply main_Exit0_log in E as (evs' & Hl').
      rewrite Hl in Hl'. apply app_inv_head in Hl'. rewrite Hl'. apply last_snoc.
    + right. split; [done|]. destruct Hout as (e & -> & Hfail).
      split; [apply HasPrefix_app|]. by eapply failing_last.
    + by split.
Qed.

(** X11: when [os.Lstat] on --dir fails -- nothing is there, a component of
    the path is not a directory, access is denied -- the program prints its
    banner, makes that one call and ends fatally with the walking error
    that names the directory and the cause; it reads and changes
    nothing. *)
Theorem main_root_lstat_fails
    (fuel : nat) (projectDir oldName newName : string) (errno : Errno) (w : World) :
  projectDir <> "" -> oldName <> "" -> newName <> "" ->
  lstat_errno w projectDir = Some errno ->
  main fuel projectDir oldName newName w
  = (Fatal ("Error walking the directory: lstat " +:+ projectDir
            +:+ ": " +:+ Errno_Error errno),
     mkWorld (fs w) (fault w)
       (log w ++ [Stdout ("Renaming Java project in " +:+ projectDir +:+ " from '"
                          +:+ oldName +:+ "' to '" +:+ newName +:+ "'");
                  Call SysLstat projectDir "" (Some errno)])).
Proof.
  intros Hd Ho Hn Hl. unfold main.
  apply String.eqb_neq in Hd, Ho, Hn. rewrite Hd, Ho, Hn. cbn [orb].
  unfold Printf, emit, Walker.Walk, os.Lstat, os.sys, bind, ret.
  cbn [fs fault log]. unfold lstat_errno in Hl.
  destruct (fault w SysLstat projectDir) as [e|].
  - injection Hl as ->. cbn [visit is_SkipDir is_SkipAll orb].
    unfold ret. cbn [fs fault log Error]. by rewrite <- app_assoc.
  - destruct (os.stat_sem projectDir (fs w)) as [e|[info m]]; [|done].
    injection Hl as ->. cbn [visit is_SkipDir is_SkipAll orb].
    unfold ret. cbn [fs fault log Error]. by rewrite <- app_assoc.
Qed.

Lemma main_root_lstat_fails_witness :
  lstat_errno sample_world "nowhere" = Some ENOENT
  /\ main 10 "nowhere" "com.old" "com.new" sample_world
     = (Fatal "Error walking the directory: lstat nowhere: no such file or directory",
        mkWorld sample_fs no_fault
          [Stdout "Renaming Java project in nowhere from 'com.old' to 'com.new'";
           Call SysLstat "nowhere" "" (Some ENOENT)]).
Proof.
  split; [vm_compute; reflexivity|].
  apply (main_root_lstat_fails 10 "nowhere" "com.old" "com.new" ENOENT sample_world);
    first [done | vm_compute; reflexivity].
Defined.

(** X12: when --dir itself is a directory named .git or target, the
    callback skips it (main.go, lines 31-33) and [filepath.Walk] turns the
    skip into success: the directory is listed once, nothing in it is
    looked at, and the run reports completion with exit code 0. *)
Theorem main_skipped_root (fuel : nat) (projectDir oldName newName : string) (w : World) :
  projectDir <> "" -> oldName <> "" -> newName <> "" ->
  fault w SysLstat projectDir = None -> fault w SysReadDir projectDir = None ->
  os.lookup_node (fs w) (filepath.Clean projectDir) = Some Directory ->
  skipped (os.basename projectDir) = true ->
  main (S fuel) projectDir oldName newName w
  = (Exit0,
     mkWorld (fs w) (fault w)
       (log w ++ [Stdout ("Renaming Java project in " +:+ projectDir +:+ " from '"
                          +:+ oldName +:+ "' to '" +:+ newName +:+ "'");
                  Call SysLstat projectDir "" None;
                  Call SysReadDir projectDir "" None;
                  Stdout "Renaming complete. Please verify the changes and rebuild your Java project."])).
Proof.
  intros Hd Ho Hn Hf1 Hf2 Hlk Hskip. unfold main.
  apply String.eqb_neq in Hd, Ho, Hn. rewrite Hd, Ho, Hn. cbn [orb].
  unfold Printf, emit, Walker.Walk, os.Lstat, os.sys, os.stat_sem, bind, ret.
  cbn [fs fault log]. rewrite Hf1, Hd, Hlk.
  cbn [Walker.walk IsDir negb]. unfold os.readDirNames, os.sys, bind, ret.
  cbn [fs fault log]. rewrite Hf2, Hd, Hlk.
  unfold visit. cbn [IsDir Name andb]. fold (skipped (os.basename projectDir)).
  rewrite Hskip. unfold ret. cbn [is_SkipDir is_SkipAll orb fs fault log].
  by rewrite <- !app_assoc.
Qed.

Lemma main_skipped_root_witness :
  main 10 "proj/target" "com.old" "com.new" sample_world
  = (Exit0,
     mkWorld sample_fs no_fault
       [Stdout "Renaming Java project in proj/target from 'com.old' to 'com.new'";
        Call SysLstat "proj/target" "" None;
        Call SysReadDir "proj/target" "" None;
        Stdout "Renaming complete. Please verify the changes and rebuild your Java project."]).
Proof.
  apply (main_skipped_root 9 "proj/target" "com.old" "com.new" sample_world);
    first [done | vm_compute; reflexivity].
Defined.

(** ** The helper [renameDirectory] *)
Section RenameDirectory.

Lemma Stat_run (name : string) (w : World) :
  exists r,
    os.Stat name w
    = (r, mkWorld (fs w) (fault w) (log w ++ [Call SysStat name "" (stat_errno w name)]))
    /\ (os.IsNotExist (snd r) = true <-> stat_errno w name = Some ENOENT).
Proof.
  unfold os.Stat, os.sys, stat_errno, bind, ret.
  destruct (fault w SysStat name) as [e|].
  - eexists. split; [done|]. cbn [snd os.IsNotExist]. destruct e; naive_solver.
  - unfold os.stat_sem. destruct (String.eqb name ""); [by eexists|].
    destruct (os.lookup_node (fs w) (filepath.Clean name)); [by eexists|].
    eexists. split; [done|]. cbn [snd os.IsNotExist].
    destruct (os.missing _ _); naive_solver.
Qed.

End RenameDirectory.

(** X13: [renameDirectory] on an old path that [os.Stat] reports as not
    existing returns nil after that one call: it prints nothing, does not
    look at the new path and changes nothing. *)
Theorem renameDirectory_missing_source (oldPath newPath : string) (w : World) :
  stat_errno w oldPath = Some ENOENT ->
  renameDirectory oldPath newPath w
  = (None, mkWorld (fs w) (fault w) (log w ++ [Call SysStat oldPath "" (Some ENOENT)])).
Proof.
  intros H. unfold renameDirectory. unfold bind at 1.
  destruct (Stat_run oldPath w) as (r & -> & Hr). rewrite H in Hr |- *.
  by rewrite (proj2 Hr eq_refl).
Qed.

Lemma renameDirectory_missing_source_witness :
  stat_errno tree_world "src/org" = Some ENOENT
  /\ renameDirectory "src/org" "src/com/new" tree_world
     = (None, mkWorld (fs tree_world) no_fault [Call SysStat "src/org" "" (Some ENOENT)]).
Proof.
  split; [vm_compute; reflexivity|].
  apply (renameDirectory_missing_source "src/org" "src/com/new" tree_world).
  vm_compute. reflexivity.
Defined.

(** X14: [renameDirectory] goes on to [os.Rename] only when [os.Stat] on
    the new path reports "not exist".  With any other answer -- the new path
    is there, or [os.Stat] failed for another reason -- it returns the
    "already exists" error after the two [os.Stat] calls, without calling
    [os.Rename] and without changing the file system. *)
Theorem renameDirectory_refuses_existing (oldPath newPath : string) (w : World) :
  stat_errno w oldPath <> Some ENOENT ->
  stat_errno w newPath <> Some ENOENT ->
  renameDirectory oldPath newPath w
  = (Some (errorString ("new directory " +:+ newPath +:+ " already exists")),
     mkWorld (fs w) (fault w)
       (log w ++ [Call SysStat oldPath "" (stat_errno w oldPath);
                  Call SysStat newPath "" (stat_errno w newPath)])).
Proof.
  intros Ho Hn. unfold renameDirectory. unfold bind at 1.
  destruct (Stat_run oldPath w) as (r & -> & Hr).
  destruct (os.IsNotExist r.2) eqn:E1; [exfalso; by apply Ho, Hr|].
  unfold bind at 1. set (w1 := mkWorld _ _ _).
  assert (stat_errno w1 newPath = stat_errno w newPath) as Hsame by done.
  destruct (Stat_run newPath w1) as (r' & -> & Hr'). rewrite Hsame in Hr' |- *.
  destruct (os.IsNotExist r'.2) eqn:E2; [exfalso; by apply Hn, Hr'|].
  unfold ret. subst w1. cbn [negb fs fault log]. by rewrite <- app_assoc.
Qed.

Lemma renameDirectory_refuses_existing_witness :
  stat_errno tree_world "src/com/old" <> Some ENOENT
  /\ stat_errno tree_world "src/com/older" <> Some ENOENT
  /\ renameDirectory "src/com/old" "src/com/older" tree_world
     = (Some (errorString "new directory src/com/older already exists"),
        mkWorld (fs tree_world) no_fault
          [Call SysStat "src/com/old" "" None; Call SysStat "src/com/older" "" None]).
Proof.
  split; [vm_compute; discriminate|]. split; [vm_compute; discriminate|].
  apply (renameDirectory_refuses_existing "src/com/old" "src/com/older" tree_world);
    vm_compute; discriminate.
Defined.

(** ** Moving a tree *)
Section MoveTree.

Variables ko kn : string.
Variable m : gmap string node.

Lemma str_drop_len (d : string) : str_drop (len d) d = "".
Proof. by induction d. Qed.

Lemma under_split (d k : string) :
  osdir.under d k = true -> k = d +:+ str_drop (len d) k.
Proof.
  unfold osdir.under. intros H. apply orb_true_iff in H as [H|H].
  - apply String.eqb_eq in H. subst k. by rewrite str_drop_len, str_app_nil_r.
  - apply HasPrefix_split in H. rewrite str_app_assoc in H.
    set (r := str_drop (len (d +:+ "/")) k) in H.
    rewrite H, str_drop_app. done.
Qed.

Lemma under_rekey (k : string) :
  osdir.under ko k = true -> osdir.under kn (osdir.rekey ko kn k) = true.
Proof.
  unfold osdir.under, osdir.rekey. intros H. apply orb_true_iff in H as [H|H].
  - apply String.eqb_eq in H. subst k.
    by rewrite str_drop_len, str_app_nil_r, String.eqb_refl.
  - apply HasPrefix_split in H. rewrite str_app_assoc in H.
    set (r := str_drop (len (ko +:+ "/")) k) in H.
    rewrite H, str_drop_app, <- str_app_assoc, HasPrefix_app. apply orb_true_r.
Qed.

Lemma rekey_inj (k k' : string) :
  osdir.under ko k = true -> osdir.under ko k' = true ->
  osdir.rekey ko kn k = osdir.rekey ko kn k' -> k = k'.
Proof.
  intros Hk Hk' Heq. unfold osdir.rekey in Heq. apply String.app_inj in Heq.
  rewrite (under_split _ _ Hk), (under_split _ _ Hk'). by rewrite Heq.
Qed.

Let moved : gmap string node :=
  list_to_map
    ((fun kv => (osdir.rekey ko kn kv.1, kv.2))
       <$> map_to_list (filter (fun kv => osdir.under ko kv.1 = true) m)).

Lemma moved_source (k' : string) (v : node) :
  moved !! k' = Some v ->
  exists k, k' = osdir.rekey ko kn k /\ osdir.under ko k = true /\ m !! k = Some v.
Proof.
  intros H. apply elem_of_list_to_map_2 in H.
  apply list_elem_of_fmap in H as ([k v'] & Heq & Hin). simplify_eq/=.
  apply elem_of_map_to_list, map_lookup_filter_Some in Hin as [Hm Hu]. eauto.
Qed.

Lemma moved_lookup (k : string) :
  osdir.under ko k = true -> moved !! osdir.rekey ko kn k = m !! k.
Proof.
  intros Hk. destruct (m !! k) as [v|] eqn:E.
  - apply elem_of_list_to_map_1.
    + rewrite <- list_fmap_compose. apply NoDup_fmap_2_strong; [|apply NoDup_map_to_list].
      intros [k1 v1] [k2 v2] H1 H2 Heq. simpl in Heq.
      apply elem_of_map_to_list, map_lookup_filter_Some in H1 as [Hm1 Hu1].
      apply elem_of_map_to_list, map_lookup_filter_Some in H2 as [Hm2 Hu2].
      simpl in *. assert (k1 = k2) by (by eapply rekey_inj). subst. congruence.
    + apply list_elem_of_fmap. exists (k, v). split; [done|].
      by apply elem_of_map_to_list, map_lookup_filter_Some.
  - destruct (moved !! osdir.rekey ko kn k) as [v|] eqn:E'; [|done].
    apply moved_source in E' as (k1 & Heq & Hu & Hm).
    apply rekey_inj in Heq; [|done|done]. congruence.
Qed.

Lemma moved_under (k' : string) : osdir.under kn k' = false -> moved !! k' = None.
Proof.
  intros Hk. destruct (moved !! k') as [v|] eqn:E; [|done].
  apply moved_source in E as (k & -> & Hu & _).
  apply under_rekey in Hu. congruence.
Qed.

(** The entries of the tree arrive below [kn] as they were, nothing of the
    tree stays outside, and what is outside both trees is not touched. *)
Lemma move_tree_spec :
  (forall k, osdir.under ko k = true ->
             osdir.move_tree ko kn m !! osdir.rekey ko kn k = m !! k)
  /\ (forall k, osdir.under ko k = true -> osdir.under kn k = false ->
                osdir.move_tree ko kn m !! k = None)
  /\ (forall k, osdir.under ko k = false -> osdir.under kn k = false ->
                osdir.move_tree ko kn m !! k = m !! k).
Proof.
  unfold osdir.move_tree. fold moved. split; [|split].
  - intros k Hk. pose proof (moved_lookup k Hk) as Hm.
    destruct (m !! k) as [v|] eqn:E.
    + by apply lookup_union_Some_l.
    + apply lookup_union_None. split; [done|].
      apply map_lookup_filter_None. right. intros v _ [_ Hu]. simpl in Hu.
      rewrite (under_rekey k Hk) in Hu. done.
  - intros k Hk Hn. apply lookup_union_None. split; [by apply moved_under|].
    apply map_lookup_filter_None. right. intros v _ [Hu _]. simpl in Hu. congruence.
  - intros k Hk Hn. rewrite lookup_union_r by (by apply moved_under).
    destruct (m !! k) as [v|] eqn:E.
    + by apply map_lookup_filter_Some.
    + apply map_lookup_filter_None. by left.
Qed.

Lemma same_tree_spec :
  ko = kn ->
  (forall k, osdir.under ko k = true -> m !! osdir.rekey ko kn k = m !! k)
  /\ (forall k, osdir.under ko k = true -> osdir.under kn k = false -> m !! k = None)
  /\ (forall k, osdir.under ko k = false -> osdir.under kn k = false -> m !! k = m !! k).
Proof.
  intros <-. split; [|split]; [|intros; congruence|done].
  intros k Hk. unfold osdir.rekey. by rewrite <- (under_split _ _ Hk).
Qed.

End MoveTree.

Lemma rename_sem_directory (oldname newname : string) (m m' : gmap string node) :
  osdir.rename_sem oldname newname m = inr (tt, m') ->
  os.lookup_node m (filepath.Clean oldname) = Some Directory ->
  (filepath.Clean oldname = filepath.Clean newname /\ m' = m)
  \/ m' = osdir.move_tree (filepath.Clean oldname) (filepath.Clean newname) m.
Proof.
  unfold osdir.rename_sem, osdir.rename2. intros H Hlk.
  destruct (String.eqb oldname "" || String.eqb newname ""); [done|].
  cbv zeta in H. rewrite Hlk in H.
  destruct (String.eqb_spec (filepath.Clean oldname) (filepath.Clean newname)) as [Heq|Hne].
  - left. split; [done|]. repeat case_match; by simplify_eq.
  - right. repeat case_match; by simplify_eq.
Qed.

(** X15: when [renameDirectory] returns nil for a directory that [os.Stat]
    found, the tree has moved: every entry at or below the old path is at
    the same place below the new path, as it was; nothing of it is left
    outside the new tree; everything outside both trees is as before; and
    the last line printed says so. *)
Theorem renameDirectory_moves_tree (oldPath newPath : string) (w w' : World) :
  let ko := filepath.Clean oldPath in
  let kn := filepath.Clean newPath in
  renameDirectory oldPath newPath w = (None, w') ->
  stat_errno w oldPath <> Some ENOENT ->
  os.lookup_node (fs w) ko = Some Directory ->
  (forall k, osdir.under ko k = true -> fs w' !! osdir.rekey ko kn k = fs w !! k)
  /\ (forall k, osdir.under ko k = true -> osdir.under kn k = false -> fs w' !! k = None)
  /\ (forall k, osdir.under ko k = false -> osdir.under kn k = false ->
                fs w' !! k = fs w !! k)
  /\ last (log w')
     = Some (Stdout ("Renamed directory from " +:+ oldPath +:+ " to " +:+ newPath)).
Proof.
  intros ko kn Hrun Hst Hlk. revert Hrun. unfold renameDirectory. unfold bind at 1.
  destruct (Stat_run oldPath w) as (r & -> & Hr).
  destruct (os.IsNotExist r.2) eqn:E1; [exfalso; by apply Hst, Hr|].
  unfold bind at 1. set (w1 := mkWorld _ _ _).
  destruct (Stat_run newPath w1) as (r' & -> & _).
  destruct (negb (os.IsNotExist r'.2)); [done|].
  unfold bind at 1. set (w2 := mkWorld _ _ _).
  unfold osdir.Rename, os.sys, bind, ret, Printf, emit.
  destruct (fault w2 SysRename oldPath); [done|].
  destruct (osdir.rename_sem oldPath newPath (fs w2)) as [e|[[] m']] eqn:ER; [done|].
  intros [= <-]. cbn [fs log]. subst w2 w1. cbn [fs] in ER.
  assert ((forall k, osdir.under ko k = true -> m' !! osdir.rekey ko kn k = fs w !! k)
          /\ (forall k, osdir.under ko k = true -> osdir.under kn k = false ->
                        m' !! k = None)
          /\ (forall k, osdir.under ko k = false -> osdir.under kn k = false ->
                        m' !! k = fs w !! k)) as (Hmove & Hgone & Hrest).
  { apply rename_sem_directory in ER as [[Heq ->]| ->]; [| |exact Hlk].
    - by apply same_tree_spec.
    - apply move_tree_spec. }
  split; [exact Hmove|]. split; [exact Hgone|]. split; [exact Hrest|]. apply last_snoc.
Qed.

Lemma renameDirectory_moves_tree_witness :
  tree_rename_run.1 = None
  /\ stat_errno tree_world "src/com/old" <> Some ENOENT
  /\ os.lookup_node (fs tree_world) (filepath.Clean "src/com/old") = Some Directory
  /\ fs tree_rename_run.2 !! "src/com/new/sub/B.java" = Some (File "package com.old.sub;")
  /\ fs tree_rename_run.2 !! "src/com/old/sub/B.java" = None
  /\ fs tree_rename_run.2 !! "src/com/older/C.java" = Some (File "package com.older;").
Proof.
  split; [vm_compute; reflexivity|]. split; [vm_compute; discriminate|].
  split; [vm_compute; reflexivity|].
  assert (renameDirectory "src/com/old" "src/com/new" tree_world
          = (None, tree_rename_run.2)) as Hrun by (vm_compute; reflexivity).
  destruct (renameDirectory_moves_tree _ _ _ _ Hrun) as (Hmove & Hgone & Hrest & _);
    [vm_compute; discriminate|vm_compute; reflexivity|].
  split; [|split].
  - apply (Hmove "src/com/old/sub/B.java"). vm_compute. reflexivity.
  - apply Hgone; vm_compute; reflexivity.
  - rewrite Hrest by (vm_compute; reflexivity). vm_compute. reflexivity.
Defined.

(** * What the walk reaches and what a run changes *)
Section ChangedWhereRead.

Variables o n : string.











End ChangedWhereRead.




(** * Running the tool a second time *)
Section Overlap.











End Overlap.

Section SecondRun.










End SecondRun.


